(** * hashart-life: the automaton core of [hash_grid.py]

    A shallow embedding of the seed encoder and of the toroidal Game-of-Life
    engine of [hash_grid.py] (lines 12-13, 29-52 and 75-97), and the
    properties of its specification proved about it.

    Python values are modelled as follows.
    - [int] is [Z] (Python integers are unbounded); [//] is [Z.div] and [%]
      is [Z.modulo], which both round towards minus infinity as Python does.
    - a [list] is a Rocq [list]; subscripting follows Python: an index in
      [-len, len) is accepted, negative ones counting from the end, and any
      other raises [IndexError].
    - an exception is [None] in the [option] monad.
    - a [str] is the list of its Unicode code points; [bytes] is a list of
      integers in [0, 256). *)

From Stdlib Require Import ZArith Lia.
From stdpp Require Import base numbers option list strings gmap.

Local Open Scope Z_scope.

(** ** Python primitives *)

Module Py.

(** The position a subscript [i] denotes in a sequence of length [len]. *)
Definition norm_index (len i : Z) : option nat :=
  if (0 <=? i) && (i <? len) then Some (Z.to_nat i)
  else if (i <? 0) && (- len <=? i) then Some (Z.to_nat (i + len))
  else None.

(** [l[i]] *)
Definition getitem {A} (l : list A) (i : Z) : option A :=
  k ← norm_index (Z.of_nat (length l)) i; l !! k.

(** [l[i] = v] *)
Definition setitem {A} (l : list A) (i : Z) (v : A) : option (list A) :=
  k ← norm_index (Z.of_nat (length l)) i; Some (<[k:=v]> l).

(** [range(start, stop, step)]; [range(n)] is [range 0 n 1]. *)
Definition range (start stop step : Z) : list Z :=
  let n := if 0 <? step then (stop - start + step - 1) `div` step
           else if step <? 0 then (start - stop - step - 1) `div` (- step)
           else 0 in
  (λ k : nat, start + Z.of_nat k * step) <$> seq 0 (Z.to_nat n).

(** [for a in it: body], threading the variables the body assigns. *)
Fixpoint for_ {A S} (it : list A) (body : A → S → option S) (s : S)
  : option S :=
  match it with
  | [] => Some s
  | a :: it' => s' ← body a s; for_ it' body s'
  end.

(** Truth value of an [int]. *)
Definition truthy (c : Z) : bool := negb (c =? 0).

(** [str.encode('utf-8')] on one code point. Surrogates (U+D800..U+DFFF)
    raise [UnicodeEncodeError]; values outside [0, 0x10FFFF] are not
    code points of a [str]. *)
Definition utf8_char (c : Z) : option (list Z) :=
  if c <? 0 then None
  else if c <? 0x80 then Some [c]
  else if c <? 0x800 then
    Some [Z.lor 0xC0 (Z.shiftr c 6); Z.lor 0x80 (Z.land c 0x3F)]
  else if c <? 0x10000 then
    if (0xD800 <=? c) && (c <=? 0xDFFF) then None
    else Some [Z.lor 0xE0 (Z.shiftr c 12);
               Z.lor 0x80 (Z.land (Z.shiftr c 6) 0x3F);
               Z.lor 0x80 (Z.land c 0x3F)]
  else if c <=? 0x10FFFF then
    Some [Z.lor 0xF0 (Z.shiftr c 18);
          Z.lor 0x80 (Z.land (Z.shiftr c 12) 0x3F);
          Z.lor 0x80 (Z.land (Z.shiftr c 6) 0x3F);
          Z.lor 0x80 (Z.land c 0x3F)]
  else None.

(** [s.encode('utf-8')] *)
Fixpoint encode_utf8 (s : list Z) : option (list Z) :=
  match s with
  | [] => Some []
  | c :: s' => b ← utf8_char c; bs ← encode_utf8 s'; Some (b ++ bs)
  end.

(** The code points [encode_utf8] accepts: the Unicode scalar values. *)
Definition scalar (c : Z) : Prop :=
  0 ≤ c ≤ 0x10FFFF ∧ ¬ (0xD800 ≤ c ≤ 0xDFFF).

(** The [str] of an ASCII literal. *)
Definition str (s : string) : list Z :=
  (λ a, Z.of_N (Ascii.N_of_ascii a)) <$> String.list_ascii_of_string s.

End Py.

(** ** The program *)

Definition SVG_SIZE : Z := 32.
Definition MAX_BYTES : Z := (SVG_SIZE * SVG_SIZE + 7) `div` 8.

(** [List[List[int]]] *)
Abbreviation Grid := (list (list Z)) (only parsing).

(** [create_grid]: [SVG_SIZE] fresh rows of [SVG_SIZE] zeros. The rows are
    built by a comprehension, so no two of them are the same object and
    updating a cell is an update of one row of the value. *)
Definition create_grid : Grid :=
  (λ _, (λ _, 0) <$> Py.range 0 SVG_SIZE 1) <$> Py.range 0 SVG_SIZE 1.

(** [grid[y][x]] *)
Definition cell_get (g : Grid) (y x : Z) : option Z :=
  row ← Py.getitem g y; Py.getitem row x.

(** [grid[y][x] = v] *)
Definition cell_set (g : Grid) (y x v : Z) : option Grid :=
  row ← Py.getitem g y; row' ← Py.setitem row x v; Py.setitem g y row'.

Definition get_neighbors (grid : Grid) (x y : Z) : option Z :=
  Py.for_ (Py.range (-1) 2 1) (λ i count,
    Py.for_ (Py.range (-1) 2 1) (λ j count,
      if (i =? 0) && (j =? 0) then Some count
      else
        let new_x := (x + i + SVG_SIZE) `mod` SVG_SIZE in
        let new_y := (y + j + SVG_SIZE) `mod` SVG_SIZE in
        v ← cell_get grid new_y new_x;
        Some (count + v)) count) 0.

(** The body of the inner loop of [evolve_grid]. *)
Definition evolve_cell (grid : Grid) (y x : Z) (new_grid : Grid)
  : option Grid :=
  neighbors ← get_neighbors grid x y;
  c ← cell_get grid y x;
  if Py.truthy c
  then cell_set new_grid y x (if bool_decide (neighbors ∈ [2; 3]) then 1 else 0)
  else cell_set new_grid y x (if neighbors =? 3 then 1 else 0).

Definition evolve_grid (grid : Grid) : option Grid :=
  let new_grid := create_grid in
  Py.for_ (Py.range 0 SVG_SIZE 1) (λ y new_grid,
    Py.for_ (Py.range 0 SVG_SIZE 1) (λ x new_grid,
      evolve_cell grid y x new_grid) new_grid) new_grid.

(** [bytes_data[i] if i < len(bytes_data) else 0] *)
Definition byte_at (bytes_data : list Z) (i : Z) : option Z :=
  if i <? Z.of_nat (length bytes_data) then Py.getitem bytes_data i
  else Some 0.

(** The guard of line 92. *)
Definition in_grid (y x : Z) : bool := (y <? SVG_SIZE) && (x <? SVG_SIZE).

(** The body of the inner seeding loop, lines 88-93. *)
Definition seed_bit (byte i j : Z) (grid : Grid) : option Grid :=
  let bit := Z.land (Z.shiftr byte j) 1 in
  let bit_index := i * 8 + (7 - j) in
  let x := bit_index `mod` SVG_SIZE in
  let y := bit_index `div` SVG_SIZE in
  if in_grid y x then cell_set grid y x bit else Some grid.

(** Lines 82 and 85-93 of [generate_png_art]: the seed grid of a byte
    sequence. *)
Definition seed_bytes (bytes_data : list Z) : option Grid :=
  let grid := create_grid in
  Py.for_ (Py.range 0 MAX_BYTES 1) (λ i grid,
    byte ← byte_at bytes_data i;
    Py.for_ (Py.range 7 (-1) (-1)) (λ j grid, seed_bit byte i j grid) grid)
    grid.

(** Lines 82-93: the seed grid of the input text. *)
Definition seed_grid (input_text : list Z) : option Grid :=
  bytes_data ← Py.encode_utf8 input_text;
  seed_bytes bytes_data.

(** Lines 95-97: [steps] evolutions of [grid], one after the other. *)
Definition run (grid : Grid) (steps : Z) : option Grid :=
  let current_grid := grid in
  Py.for_ (Py.range 0 steps 1) (λ _ current_grid, evolve_grid current_grid)
    current_grid.

(** [generate_png_art] up to line 97: the grid it hands to the renderer
    [grid_to_png], which is outside the automaton core. *)
Definition generate_png_art (input_text : list Z) (steps : Z)
  : option Grid :=
  grid ← seed_grid input_text;
  run grid steps.

(** ** The program on a store of list objects

    The same functions with the objects they build and update kept in a
    store: a Python list is an object with an identity, a grid is a list of
    references to its rows, [create_grid] allocates 33 objects, and an
    assignment [grid[y][x] = v] updates a row object in place, for every
    variable that refers to it. Which identity a new object gets is up to
    the allocator, a parameter. The constants [SVG_SIZE] and [MAX_BYTES]
    are never assigned to and stay constants; a [bytes] object cannot be
    updated and stays a value. *)
Module Mem.

Definition loc : Type := positive.

(** What an element of a list is here: an [int] or a reference to a list. *)
Inductive val := VInt (z : Z) | VRef (l : loc).

Abbreviation heap := (gmap loc (list val)) (only parsing).

(** A computation on the store that may raise. *)
Definition M (A : Type) : Type := heap → option (A * heap).

Definition ret {A} (a : A) : M A := λ h, Some (a, h).

Definition bind {A B} (m : M A) (k : A → M B) : M B :=
  λ h, match m h with Some (a, h') => k a h' | None => None end.

Definition raise {A} : M A := λ _, None.

Definition lift {A} (o : option A) : M A :=
  λ h, match o with Some a => Some (a, h) | None => None end.

Notation "x ⇐ m ⨾ k" := (bind m (λ x, k))
  (at level 20, m at level 100, k at level 200, only parsing).

(** A new list object. *)
Definition new_list (alloc : heap → loc) (vs : list val) : M loc :=
  λ h, let l := alloc h in Some (l, <[l := vs]> h).

(** [l[i]] *)
Definition getitem (l : loc) (i : Z) : M val :=
  λ h, vs ← h !! l; v ← Py.getitem vs i; Some (v, h).

(** [l[i] = v] *)
Definition setitem (l : loc) (i : Z) (v : val) : M unit :=
  λ h, vs ← h !! l; vs' ← Py.setitem vs i v; Some ((), <[l := vs']> h).

(** [l.append(v)] *)
Definition append (l : loc) (v : val) : M unit :=
  λ h, vs ← h !! l; Some ((), <[l := vs ++ [v]]> h).

(** The list a value is, for a subscript; an [int] raises [TypeError]. *)
Definition as_list (v : val) : M loc :=
  match v with VRef l => ret l | VInt _ => raise end.

(** The [int] a value is, for [count += v]; a list raises [TypeError]. *)
Definition as_int (v : val) : M Z :=
  match v with VInt z => ret z | VRef _ => raise end.

(** The truth value of a value: an [int] is true when it is not 0, a list
    when it is not empty. *)
Definition truthy (v : val) : M bool :=
  match v with
  | VInt z => ret (Py.truthy z)
  | VRef l => λ h, vs ← h !! l;
                   Some (match vs with [] => false | _ => true end, h)
  end.

Fixpoint for_ {A S} (it : list A) (body : A → S → M S) (s : S) : M S :=
  match it with
  | [] => ret s
  | a :: it' => s' ⇐ body a s ⨾ for_ it' body s'
  end.

(** [[e for a in it]]: a new empty list, extended by the value of [e] at
    each iteration. *)
Definition list_comp {A} (alloc : heap → loc) (it : list A) (e : A → M val)
  : M loc :=
  l ⇐ new_list alloc [] ⨾
  u ⇐ for_ it (λ a _, v ⇐ e a ⨾ append l v) () ⨾
  ret l.

Definition create_grid (alloc : heap → loc) : M loc :=
  list_comp alloc (Py.range 0 SVG_SIZE 1) (λ _,
    row ⇐ list_comp alloc (Py.range 0 SVG_SIZE 1) (λ _, ret (VInt 0)) ⨾
    ret (VRef row)).

(** [grid[y][x]] *)
Definition cell_get (grid : loc) (y x : Z) : M val :=
  r ⇐ getitem grid y ⨾ row ⇐ as_list r ⨾ getitem row x.

(** [grid[y][x] = v] *)
Definition cell_set (grid : loc) (y x : Z) (v : val) : M unit :=
  r ⇐ getitem grid y ⨾ row ⇐ as_list r ⨾ setitem row x v.

Definition get_neighbors (grid : loc) (x y : Z) : M Z :=
  for_ (Py.range (-1) 2 1) (λ i count,
    for_ (Py.range (-1) 2 1) (λ j count,
      if (i =? 0) && (j =? 0) then ret count
      else
        let new_x := (x + i + SVG_SIZE) `mod` SVG_SIZE in
        let new_y := (y + j + SVG_SIZE) `mod` SVG_SIZE in
        v ⇐ cell_get grid new_y new_x ⨾
        n ⇐ as_int v ⨾
        ret (count + n)) count) 0.

Definition evolve_grid (alloc : heap → loc) (grid : loc) : M loc :=
  new_grid ⇐ create_grid alloc ⨾
  u ⇐ for_ (Py.range 0 SVG_SIZE 1) (λ y _,
        for_ (Py.range 0 SVG_SIZE 1) (λ x _,
          neighbors ⇐ get_neighbors grid x y ⨾
          c ⇐ cell_get grid y x ⨾
          live ⇐ truthy c ⨾
          if live
          then cell_set new_grid y x
                 (VInt (if bool_decide (neighbors ∈ [2; 3]) then 1 else 0))
          else cell_set new_grid y x
                 (VInt (if neighbors =? 3 then 1 else 0))) ()) () ⨾
  ret new_grid.

(** [generate_png_art] up to line 97; the result is the reference held by
    [current_grid]. *)
Definition generate_png_art (alloc : heap → loc) (input_text : list Z)
    (steps : Z) : M loc :=
  grid ⇐ create_grid alloc ⨾
  bytes_data ⇐ lift (Py.encode_utf8 input_text) ⨾
  u ⇐ for_ (Py.range 0 MAX_BYTES 1) (λ i _,
        byte ⇐ lift (byte_at bytes_data i) ⨾
        for_ (Py.range 7 (-1) (-1)) (λ j _,
          let bit := Z.land (Z.shiftr byte j) 1 in
          let bit_index := i * 8 + (7 - j) in
          let x := bit_index `mod` SVG_SIZE in
          let y := bit_index `div` SVG_SIZE in
          if in_grid y x then cell_set grid y x (VInt bit) else ret ()) ())
        () ⨾
  let current_grid := grid in
  for_ (Py.range 0 steps 1) (λ _ current_grid, evolve_grid alloc current_grid)
    current_grid.

(** The grid of integers a reference stands for in a store, if it stands
    for one. *)
Definition read_row (h : heap) (v : val) : option (list Z) :=
  match v with
  | VRef r =>
      vs ← h !! r;
      mapM (λ c, match c with VInt z => Some z | VRef _ => None end) vs
  | VInt _ => None
  end.

Definition read_grid (h : heap) (l : loc) : option Grid :=
  vs ← h !! l; mapM (read_row h) vs.

(** An allocator gives a new object an identity no object of the store
    has. *)
Definition allocator (alloc : heap → loc) : Prop := ∀ h, h !! alloc h = None.

(** Two allocators: an identity not in use, and another one. *)
Definition next_loc (h : heap) : loc := fresh (dom h).
Definition other_loc (h : heap) : loc := fresh ({[next_loc h]} ∪ dom h).

(** In the store [h] the list object [l] is the grid [g]: it holds
    references to the row objects [rs], no two of them the same object and
    none of them [l] itself, and row object number [y] holds the integers
    of row [y] of [g]. *)
Definition holds (h : heap) (l : loc) (rs : list loc) (g : Grid) : Prop :=
  h !! l = Some (VRef <$> rs) ∧ NoDup (l :: rs) ∧
  Forall2 (λ r row, h !! r = Some (VInt <$> row)) rs g.

(** Every object of [h] is in [h'], with the value it has in [h]. *)
Definition preserved (h h' : heap) : Prop :=
  ∀ l, is_Some (h !! l) → h' !! l = h !! l.

(** What the outer loop of [create_grid] keeps true: [l] is the list of the
    rows [rs] built so far, new objects that hold zeros, and no object of
    the store [h0] the call started from has changed. *)
Definition building (h0 h : heap) (l : loc) (rs : list loc) : Prop :=
  h !! l = Some (VRef <$> rs) ∧ NoDup (l :: rs) ∧
  Forall (λ r, h !! r = Some (VInt <$> replicate 32 0) ∧ h0 !! r = None) rs ∧
  (∀ l0, l0 ∉ l :: rs → h !! l0 = h0 !! l0).

End Mem.

(** ** Predicates and functions of the statements *)

(** [SVG_SIZE] rows of [SVG_SIZE] cells. *)
Definition shaped (g : Grid) : Prop :=
  length g = Z.to_nat SVG_SIZE ∧
  Forall (λ row, length row = Z.to_nat SVG_SIZE) g.

(** Every cell is 0 or 1. *)
Definition bits (g : Grid) : Prop := Forall (Forall (λ c, c = 0 ∨ c = 1)) g.

Definition bitgrid (g : Grid) : Prop := shaped g ∧ bits g.

(** A coordinate of the grid. *)
Definition coord (k : Z) : Prop := 0 ≤ k < SVG_SIZE.

(** The cell at [(x, y)], read as the program reads it; 0 where the program
    would fail, which does not happen on a well-formed grid at a coordinate
    of the grid ([cell_get_cell]). *)
Definition cell (g : Grid) (y x : Z) : Z := default 0 (cell_get g y x).

(** The offsets [(dx, dy)] with [dx, dy ∈ {-1,0,1}], without [(0,0)]. *)
Definition offsets : list (Z * Z) :=
  filter (λ d, d ≠ (0, 0)) (dx ← [-1; 0; 1]; pair dx <$> [-1; 0; 1]).

(** The cells around [(x, y)] on the torus, as pairs [(x', y')]. *)
Definition neighbor_cells (x y : Z) : list (Z * Z) :=
  (λ d, ((x + d.1) `mod` SVG_SIZE, (y + d.2) `mod` SVG_SIZE)) <$> offsets.

(** The sum of the states of the cells around [(x, y)]. *)
Definition neighbor_sum (g : Grid) (x y : Z) : Z :=
  foldr Z.add 0 ((λ c, cell g c.2 c.1) <$> neighbor_cells x y).

(** The state [evolve_grid] stores at [(x, y)], lines 48-51. *)
Definition next_state (g : Grid) (y x : Z) : Z :=
  if Py.truthy (cell g y x)
  then (if bool_decide (neighbor_sum g x y ∈ [2; 3]) then 1 else 0)
  else (if neighbor_sum g x y =? 3 then 1 else 0).

(** Byte [i] of the sequence padded with zeros. *)
Definition padded_byte (bytes_data : list Z) (i : Z) : Z :=
  default 0 (bytes_data !! Z.to_nat i).

(** The state the seeding loop stores at [(x, y)]: cell number
    [y * SVG_SIZE + x] holds bit [7 - idx mod 8] of byte [idx / 8]. *)
Definition seed_state (bytes_data : list Z) (y x : Z) : Z :=
  let idx := y * SVG_SIZE + x in
  Z.land (Z.shiftr (padded_byte bytes_data (idx `div` 8)) (7 - idx `mod` 8)) 1.

(** Where iteration [(i, j)] of the seeding loops writes. *)
Definition seed_y (p : Z * Z) : Z := (p.1 * 8 + (7 - p.2)) `div` SVG_SIZE.
Definition seed_x (p : Z * Z) : Z := (p.1 * 8 + (7 - p.2)) `mod` SVG_SIZE.

(** The predicates on texts and grids are decidable, so they can be checked
    on a concrete text or grid by evaluation. *)
#[local] Instance scalar_dec c : Decision (Py.scalar c).
Proof. unfold Py.scalar. apply _. Defined.

#[local] Instance shaped_dec g : Decision (shaped g).
Proof. unfold shaped. apply _. Defined.

#[local] Instance bits_dec g : Decision (bits g).
Proof. unfold bits. apply _. Defined.

#[local] Instance bitgrid_dec g : Decision (bitgrid g).
Proof. unfold bitgrid. apply _. Defined.

(** The grid whose live cells are the given [(x, y)]. *)
Definition grid_of (live : list (Z * Z)) : Grid :=
  foldr (λ p g, default g (cell_set g p.2 p.1 1)) create_grid live.

(** A single live cell in the corner [(0, 0)]. *)
Definition corner_grid : Grid := grid_of [(0, 0)].

(** Three live cells in a column: [(1,0)], [(1,1)], [(1,2)]. *)
Definition blinker : Grid := grid_of [(1, 0); (1, 1); (1, 2)].

(** The byte sequence padded with zero bytes to [MAX_BYTES] bytes. *)
Definition zero_pad (bytes_data : list Z) : list Z :=
  bytes_data ++ replicate (Z.to_nat MAX_BYTES - length bytes_data) 0.

(** Bit [j] of a byte, bit 0 being the most significant one. *)
Definition msb_bit (byte j : Z) : Z := Z.b2z (Z.testbit byte (7 - j)).

(** ** Grids of other shapes *)

(** At least [SVG_SIZE] rows, the first [SVG_SIZE] of them with at least
    [SVG_SIZE] cells each. *)
Definition has_block (g : Grid) : Prop :=
  (Z.to_nat SVG_SIZE ≤ length g)%nat ∧
  Forall (λ row : list Z, (Z.to_nat SVG_SIZE ≤ length row)%nat)
         (take (Z.to_nat SVG_SIZE) g).

(** The top-left [SVG_SIZE] by [SVG_SIZE] block of a grid. *)
Definition crop (g : Grid) : Grid :=
  take (Z.to_nat SVG_SIZE) <$> take (Z.to_nat SVG_SIZE) g.

#[local] Instance has_block_dec g : Decision (has_block g).
Proof. unfold has_block. apply _. Defined.

(** A grid with cell values other than 0 and 1: 5 at [(1, 1)] and 2 at
    [(0, 1)], every other cell 0. *)
Definition weighted_grid : Grid :=
  default create_grid (g ← cell_set create_grid 1 1 5; cell_set g 1 0 2).

(** ** Reading a seed grid back *)

(** The byte whose bits, the most significant first, are the cells number
    [i * 8] to [i * 8 + 7] of the grid, counted row by row. *)
Definition grid_byte (g : Grid) (i : Z) : Z :=
  foldl (λ acc j, 2 * acc + cell g ((i * 8 + j) `div` SVG_SIZE)
                                   ((i * 8 + j) `mod` SVG_SIZE))
        0 (Py.range 0 8 1).

(** The [MAX_BYTES] bytes of a grid. *)
Definition grid_bytes (g : Grid) : list Z :=
  grid_byte g <$> Py.range 0 MAX_BYTES 1.

(** The values of the elements of a [bytes] object. *)
Definition is_byte (b : Z) : Prop := 0 ≤ b < 256.

(** ** The renderer *)

(** An RGB colour: a tuple of three integers, each a byte. *)
Abbreviation colour := (Z * Z * Z)%type (only parsing).

Definition is_colour (c : colour) : Prop :=
  is_byte c.1.1 ∧ is_byte c.1.2 ∧ is_byte c.2.

Definition DEFAULT_COLOUR : colour := (40, 40, 40).
Definition BG_COLOUR : colour := (250, 250, 240).

(** The part of Pillow that [grid_to_png] uses: an image of mode RGB is its
    size and the colour of each of its pixels. A colour whose components
    are bytes is stored as it is given. *)
Module PIL.

Record image := { width : Z; height : Z; pixel : Z → Z → colour }.

(** The largest C [int], the type Pillow keeps the sizes of an image in. *)
Definition INT_MAX : Z := 2 ^ 31 - 1.

(** [Image.new('RGB', (w, h), c)]. A negative size raises [ValueError]; a
    size beyond a C [int] raises [OverflowError]; and a size for which the
    pixel buffer cannot be allocated raises [MemoryError]. Whether a buffer
    of a given size can be allocated depends on the machine: it is the
    parameter [fits]. *)
Definition new (fits : Z → Z → bool) (w h : Z) (c : colour) : option image :=
  if (w <? 0) || (h <? 0) then None
  else if (INT_MAX <? w) || (INT_MAX <? h) then None
  else if negb (fits w h) then None
  else Some {| width := w; height := h; pixel := λ _ _, c |}.

(** [pixels[x, y] = c], for [pixels = image.load()]; an index outside the
    image raises [IndexError], a negative one counts from the far edge. *)
Definition putpixel (im : image) (x y : Z) (c : colour) : option image :=
  i ← Py.norm_index (width im) x;
  j ← Py.norm_index (height im) y;
  Some {| width := width im; height := height im;
          pixel := λ x' y', if (x' =? Z.of_nat i) && (y' =? Z.of_nat j)
                            then c else pixel im x' y' |}.

(** [pixels[x, y]] *)
Definition getpixel (im : image) (x y : Z) : option colour :=
  i ← Py.norm_index (width im) x;
  j ← Py.norm_index (height im) y;
  Some (pixel im (Z.of_nat i) (Z.of_nat j)).

End PIL.

(** [grid_to_png], lines 54-73. [pixels] is a view of [image]: a pixel
    written through it is a pixel of the image returned. *)
Definition grid_to_png (fits : Z → Z → bool) (grid : Grid)
    (active_colour inactive_colour : colour) (scale : Z)
  : option PIL.image :=
  let width := SVG_SIZE * scale in
  let height := SVG_SIZE * scale in
  image ← PIL.new fits width height inactive_colour;
  Py.for_ (Py.range 0 SVG_SIZE 1) (λ y image,
    Py.for_ (Py.range 0 SVG_SIZE 1) (λ x image,
      c ← cell_get grid y x;
      if Py.truthy c then
        Py.for_ (Py.range 0 scale 1) (λ px image,
          Py.for_ (Py.range 0 scale 1) (λ py image,
            PIL.putpixel image (x * scale + px) (y * scale + py)
              active_colour) image) image
      else Some image) image) image.

(** [generate_png_art], lines 75-99, with the image it returns. *)
Definition generate_png_art_image (fits : Z → Z → bool)
    (input_text : list Z) (steps : Z)
    (active_colour inactive_colour : colour) (scale : Z)
  : option PIL.image :=
  current_grid ← generate_png_art input_text steps;
  grid_to_png fits current_grid active_colour inactive_colour scale.

(** [im'] is [im] with the pixels selected by [P] painted in [c]. *)
Definition painted (im im' : PIL.image) (P : Z → Z → bool) (c : colour)
  : Prop :=
  PIL.width im' = PIL.width im ∧ PIL.height im' = PIL.height im ∧
  ∀ X Y, PIL.pixel im' X Y = if P X Y then c else PIL.pixel im X Y.

(** The pixels the loops of [grid_to_png] paint for the cell [(x, y)]. *)
Definition in_block (scale x y X Y : Z) : bool :=
  existsb (λ px, existsb (λ py,
    (X =? x * scale + px) && (Y =? y * scale + py))
    (Py.range 0 scale 1)) (Py.range 0 scale 1).

(** ** Translations of the torus *)

(** [g2] is [g] moved by [dx] columns and [dy] rows around the torus: its
    cell [(x, y)] is the cell [(x + dx, y + dy)] of [g]. *)
Definition shifted (dx dy : Z) (g g2 : Grid) : Prop :=
  ∀ y x, coord y → coord x →
    cell_get g2 y x
    = cell_get g ((y + dy) `mod` SVG_SIZE) ((x + dx) `mod` SVG_SIZE).

(** ** Population *)

(** The coordinates [(x, y)] of the cells that are not 0. *)
Definition live_cells (g : Grid) : list (Z * Z) :=
  filter (λ p, cell g p.2 p.1 ≠ 0)
         (x ← Py.range 0 SVG_SIZE 1; pair x <$> Py.range 0 SVG_SIZE 1).

(** [Image.new] can return an image of [size] by [size] pixels: the size
    is a C [int] and the machine has the memory for it. *)
Definition allocatable (fits : Z → Z → bool) (size : Z) : Prop :=
  size ≤ PIL.INT_MAX ∧ fits size size = true.

(** A machine on which every image of C [int] size can be allocated. *)
Definition roomy : Z → Z → bool := λ _ _, true.

(** * Proofs *)

(** ** Facts about the Python primitives *)

Section py_facts.
Context {A S : Type}.
Implicit Types (l : list A) (i : Z).

Lemma norm_index_nonneg len i :
  0 ≤ i < len → Py.norm_index len i = Some (Z.to_nat i).
Proof.
  intros [Hlo Hhi]. unfold Py.norm_index.
  apply Z.leb_le in Hlo as ->. apply Z.ltb_lt in Hhi as ->. done.
Qed.

Lemma getitem_nonneg l i :
  0 ≤ i < Z.of_nat (length l) → Py.getitem l i = l !! Z.to_nat i.
Proof. intros Hi. unfold Py.getitem. by rewrite norm_index_nonneg. Qed.

Lemma setitem_nonneg l i v :
  0 ≤ i < Z.of_nat (length l) →
  Py.setitem l i v = Some (<[Z.to_nat i:=v]> l).
Proof. intros Hi. unfold Py.setitem. by rewrite norm_index_nonneg. Qed.

Lemma for_app (it1 it2 : list A) (body : A → S → option S) s :
  Py.for_ (it1 ++ it2) body s = s' ← Py.for_ it1 body s; Py.for_ it2 body s'.
Proof.
  revert s. induction it1 as [|a it1 IH]; intros s; simpl; [done|].
  destruct (body a s) as [s'|]; simpl; [apply IH | done].
Qed.

Lemma for_ext (it : list A) (body body' : A → S → option S) s :
  (∀ a s0, a ∈ it → body a s0 = body' a s0) →
  Py.for_ it body s = Py.for_ it body' s.
Proof.
  revert s. induction it as [|a it IH]; intros s Hb; simpl; [done|].
  rewrite Hb by left. destruct (body' a s) as [s'|]; simpl; [|done].
  apply IH. intros b s0 Hin. apply Hb. by right.
Qed.
End py_facts.

Lemma for_fmap {A B S} (f : A → B) (it : list A) (body : B → S → option S) s :
  Py.for_ (f <$> it) body s = Py.for_ it (λ a, body (f a)) s.
Proof.
  revert s. induction it as [|a it IH]; intros s; simpl; [done|].
  destruct (body (f a) s); simpl; [apply IH | done].
Qed.

(** Nested loops run their body over the pairs of indices, row by row. *)
Lemma for_nested {A B S} (la : list A) (lb : list B)
    (body : A → B → S → option S) s :
  Py.for_ la (λ a s0, Py.for_ lb (body a) s0) s =
  Py.for_ (a ← la; pair a <$> lb) (λ p s0, body p.1 p.2 s0) s.
Proof.
  revert s. induction la as [|a la IH]; intros s; simpl; [done|].
  rewrite for_app, for_fmap. simpl.
  destruct (Py.for_ lb _ s); simpl; [apply IH | done].
Qed.

Lemma range_up n :
  Py.range 0 n 1 = Z.of_nat <$> seq 0 (Z.to_nat n).
Proof.
  unfold Py.range. simpl. rewrite Z.div_1_r.
  replace (n - 0 + 1 - 1) with n by lia.
  apply list_fmap_ext. intros _ k _. lia.
Qed.

Lemma elem_of_range_up n k : k ∈ Py.range 0 n 1 ↔ 0 ≤ k < n.
Proof.
  rewrite range_up, list_elem_of_fmap. split.
  - intros (m & -> & Hm). apply elem_of_seq in Hm. lia.
  - intros Hk. exists (Z.to_nat k). split; [lia|]. apply elem_of_seq. lia.
Qed.

(** A text without surrogates has a UTF-8 encoding. *)
Lemma encode_utf8_scalar s : Forall Py.scalar s → is_Some (Py.encode_utf8 s).
Proof.
  induction 1 as [|c s [Hc Hs] _ [bs IH]]; simpl; [by eexists|].
  assert (is_Some (Py.utf8_char c)) as [b ->]; [|rewrite IH; by eexists].
  unfold Py.utf8_char.
  repeat match goal with
         | |- context [?a <? ?b] => destruct (Z.ltb_spec a b)
         | |- context [?a <=? ?b] => destruct (Z.leb_spec a b)
         end; simpl; try (by eexists); lia.
Qed.

(** ** Well-formed grids *)

Lemma shaped_row g y :
  shaped g → coord y →
  ∃ row, g !! Z.to_nat y = Some row ∧ length row = Z.to_nat SVG_SIZE.
Proof.
  intros [Hlen Hrows] Hy. unfold coord in Hy.
  destruct (lookup_lt_is_Some_2 g (Z.to_nat y)) as [row Hrow]; [lia|].
  exists row. split; [done|].
  by apply (Forall_lookup_1 _ _ _ _ Hrows Hrow).
Qed.

Lemma cell_get_shaped g y x :
  shaped g → coord y → coord x →
  ∃ row v, g !! Z.to_nat y = Some row ∧ row !! Z.to_nat x = Some v ∧
           cell_get g y x = Some v.
Proof.
  intros Hg Hy Hx. destruct (shaped_row g y Hg Hy) as (row & Hrow & Hlen).
  unfold coord in *.
  destruct (lookup_lt_is_Some_2 row (Z.to_nat x)) as [v Hv]; [lia|].
  exists row, v. repeat split; try done.
  unfold cell_get. destruct Hg as [Hlg _].
  rewrite getitem_nonneg by lia. rewrite Hrow. simpl.
  rewrite getitem_nonneg by lia. done.
Qed.

Lemma cell_get_is_Some g y x :
  shaped g → coord y → coord x → is_Some (cell_get g y x).
Proof.
  intros Hg Hy Hx. destruct (cell_get_shaped g y x) as (?&v&?&?&?); eauto.
Qed.

(** [grid[y][x] = v] on a well-formed grid succeeds, keeps the shape, stores
    [v] at [(x, y)] and leaves every other cell as it was. *)
Lemma cell_set_shaped g y x v :
  shaped g → coord y → coord x →
  ∃ g', cell_set g y x v = Some g' ∧ shaped g' ∧
        cell_get g' y x = Some v ∧
        ∀ b a, coord b → coord a → (b, a) ≠ (y, x) →
               cell_get g' b a = cell_get g b a.
Proof.
  intros Hg Hy Hx. destruct (shaped_row g y Hg Hy) as (row & Hrow & Hlen).
  pose proof Hg as [Hlg Hrows]. unfold coord in *.
  exists (<[Z.to_nat y := <[Z.to_nat x := v]> row]> g).
  assert (Hg' : shaped (<[Z.to_nat y := <[Z.to_nat x := v]> row]> g)).
  { split; [by rewrite length_insert|].
    apply Forall_insert; [done|]. by rewrite length_insert. }
  split; [|split; [done|split]].
  - unfold cell_set. rewrite getitem_nonneg by lia. rewrite Hrow. simpl.
    rewrite setitem_nonneg by lia. simpl. by rewrite setitem_nonneg by lia.
  - unfold cell_get. rewrite getitem_nonneg by (rewrite length_insert; lia).
    rewrite list_lookup_insert_eq by lia. simpl.
    rewrite getitem_nonneg by (rewrite length_insert; lia).
    by rewrite list_lookup_insert_eq by lia.
  - intros b a Hb Ha Hne. unfold cell_get.
    rewrite !getitem_nonneg by (rewrite ?length_insert; lia).
    destruct (decide (b = y)) as [->|Hby].
    + rewrite list_lookup_insert_eq by lia. rewrite Hrow. simpl.
      rewrite !getitem_nonneg by (rewrite ?length_insert; lia).
      apply list_lookup_insert_ne. intros Heq. apply Hne. f_equal. lia.
    + rewrite list_lookup_insert_ne by lia. done.
Qed.

(** ** Loops that fill a grid cell by cell *)

(** A loop whose every iteration [k] stores [f y x] at its own cell
    [(x, y) = (cx k, cy k)]: it succeeds, keeps the shape, leaves [f] in
    each cell it visits and does not touch the others. *)
Lemma for_fill {K} (it : list K) (cy cx : K → Z) (f : Z → Z → Z)
    (body : K → Grid → option Grid) (g : Grid) :
  shaped g →
  (∀ k, k ∈ it → coord (cy k) ∧ coord (cx k)) →
  (∀ k g0, k ∈ it → shaped g0 →
           body k g0 = cell_set g0 (cy k) (cx k) (f (cy k) (cx k))) →
  ∃ g', Py.for_ it body g = Some g' ∧ shaped g' ∧
        ∀ y x, coord y → coord x →
          ((∃ k, k ∈ it ∧ cy k = y ∧ cx k = x) →
             cell_get g' y x = Some (f y x)) ∧
          ((∀ k, k ∈ it → (cy k, cx k) ≠ (y, x)) →
             cell_get g' y x = cell_get g y x).
Proof.
  revert g. induction it as [|k it IH]; intros g Hg Hc Hb.
  - exists g. split; [done|]. split; [done|]. intros y x _ _. split.
    + intros (k & Hk & _). by apply elem_of_nil in Hk.
    + done.
  - destruct (Hc k) as [Hy Hx]; [left|].
    destruct (cell_set_shaped g (cy k) (cx k) (f (cy k) (cx k)) Hg Hy Hx)
      as (g1 & Hset & Hg1 & Hnew & Hold).
    destruct (IH g1 Hg1) as (g' & Hfor & Hg' & Hcells).
    { intros k' Hk'. apply Hc. by right. }
    { intros k' g0 Hk'. apply Hb. by right. }
    exists g'. split; [|split; [done|]].
    + simpl. rewrite Hb by (done || left). rewrite Hset. done.
    + intros y x Cy Cx. destruct (Hcells y x Cy Cx) as [Hin Hout]. split.
      * intros (k' & Hk' & Hky & Hkx).
        destruct (decide (Exists (λ k0, cy k0 = y ∧ cx k0 = x) it))
          as [Hex|Hnex].
        { apply Hin. apply Exists_exists in Hex as (k0 & ? & ? & ?). eauto. }
        rewrite Hout.
        { apply elem_of_cons in Hk' as [->|Hk']; [by subst|].
          exfalso. apply Hnex, Exists_exists. eauto. }
        intros k0 Hk0 Heq. apply Hnex, Exists_exists. exists k0.
        by simplify_eq.
      * intros Hne. rewrite Hout.
        { apply Hold; [done..|]. intros Heq. by apply (Hne k); [left|]. }
        intros k0 Hk0. apply Hne. by right.
Qed.

(** ** Neighbours *)

Lemma cell_get_cell g y x :
  shaped g → coord y → coord x → cell_get g y x = Some (cell g y x).
Proof.
  intros Hg Hy Hx. unfold cell.
  by destruct (cell_get_is_Some g y x Hg Hy Hx) as [v ->].
Qed.

Lemma offsets_eq :
  offsets =
  [(-1, -1); (-1, 0); (-1, 1); (0, -1); (0, 1); (1, -1); (1, 0); (1, 1)].
Proof. reflexivity. Qed.

Lemma wrap_coord k d : coord ((k + d) `mod` SVG_SIZE).
Proof. unfold coord, SVG_SIZE. apply Z.mod_pos_bound. lia. Qed.

Lemma wrap_add k d :
  (k + d + SVG_SIZE) `mod` SVG_SIZE = (k + d) `mod` SVG_SIZE.
Proof.
  unfold SVG_SIZE. rewrite <- (Z_mod_plus_full (k + d) 1 32). by f_equal.
Qed.

Lemma get_neighbors_shaped g x y :
  shaped g → get_neighbors g x y = Some (neighbor_sum g x y).
Proof.
  intros Hg. unfold get_neighbors.
  change (Py.range (-1) 2 1) with [-1; 0; 1].
  cbn [Py.for_ Z.eqb andb mbind option_bind].
  rewrite !wrap_add.
  rewrite !(cell_get_cell g) by (done || apply wrap_coord).
  cbn [Py.for_ Z.eqb andb mbind option_bind]. f_equal.
  unfold neighbor_sum, neighbor_cells. rewrite offsets_eq.
  cbn [fmap list_fmap foldr fst snd]. lia.
Qed.

(** ** One generation *)

Lemma next_state_bit g y x : next_state g y x = 0 ∨ next_state g y x = 1.
Proof.
  unfold next_state.
  destruct (Py.truthy _); [destruct (bool_decide _)|destruct (_ =? _)]; auto.
Qed.

Lemma evolve_cell_shaped g y x new_grid :
  shaped g → coord y → coord x →
  evolve_cell g y x new_grid = cell_set new_grid y x (next_state g y x).
Proof.
  intros Hg Hy Hx. unfold evolve_cell, next_state.
  rewrite get_neighbors_shaped by done. simpl.
  rewrite cell_get_cell by done. simpl.
  by destruct (Py.truthy _).
Qed.

Lemma create_grid_shaped : shaped create_grid.
Proof. split; [done|]. by apply Forall_forall; vm_compute; intros row Hr;
  repeat (apply elem_of_cons in Hr as [->|Hr]; [done|]);
  apply elem_of_nil in Hr. Qed.

(** The pairs a doubly nested [range(SVG_SIZE)] loop visits. *)
Lemma elem_of_grid_indices (p : Z * Z) :
  p ∈ (y ← Py.range 0 SVG_SIZE 1; pair y <$> Py.range 0 SVG_SIZE 1) ↔
  coord p.1 ∧ coord p.2.
Proof.
  rewrite list_elem_of_bind. unfold coord. split.
  - intros (y & Hp & Hy). apply list_elem_of_fmap in Hp as (x & -> & Hx).
    apply elem_of_range_up in Hy, Hx. done.
  - intros [Hy Hx]. exists p.1. split; [|by apply elem_of_range_up].
    apply list_elem_of_fmap. exists p.2.
    split; [by destruct p|by apply elem_of_range_up].
Qed.

Lemma evolve_grid_shaped g :
  shaped g →
  ∃ g', evolve_grid g = Some g' ∧ shaped g' ∧
        ∀ y x, coord y → coord x → cell_get g' y x = Some (next_state g y x).
Proof.
  intros Hg. unfold evolve_grid. rewrite for_nested.
  destruct (for_fill
    (y ← Py.range 0 SVG_SIZE 1; pair y <$> Py.range 0 SVG_SIZE 1)
    fst snd (next_state g) (λ p s0, evolve_cell g p.1 p.2 s0) create_grid)
    as (g' & Hfor & Hg' & Hcells).
  - apply create_grid_shaped.
  - intros k Hk. by apply elem_of_grid_indices.
  - intros k g0 Hk _. apply elem_of_grid_indices in Hk as [Hy Hx].
    by apply evolve_cell_shaped.
  - exists g'. split; [done|]. split; [done|].
    intros y x Hy Hx. apply Hcells; [done..|].
    exists (y, x). split; [|done]. by apply elem_of_grid_indices.
Qed.

(** A well-formed grid whose cells, read as the program reads them, are all
    0 or 1. *)
Lemma bits_of_cells g :
  shaped g →
  (∀ y x, coord y → coord x → ∃ v, cell_get g y x = Some v ∧ (v = 0 ∨ v = 1)) →
  bits g.
Proof.
  intros Hg Hc. apply Forall_lookup_2. intros i row Hrow.
  apply Forall_lookup_2. intros j c Hcj.
  pose proof Hg as [Hlg Hrows].
  pose proof (lookup_lt_Some _ _ _ Hrow) as Hi.
  pose proof (Forall_lookup_1 _ _ _ _ Hrows Hrow) as Hlen. simpl in Hlen.
  pose proof (lookup_lt_Some _ _ _ Hcj) as Hj.
  assert (Ci : coord (Z.of_nat i)) by (unfold coord; lia).
  assert (Cj : coord (Z.of_nat j)) by (unfold coord; lia).
  destruct (Hc _ _ Ci Cj) as (v & Hv & Hbit).
  destruct (cell_get_shaped g _ _ Hg Ci Cj) as (row' & v' & Hr' & Hv' & Hget).
  rewrite Nat2Z.id in Hr', Hv'. congruence.
Qed.

Lemma cells_of_bits g y x v :
  bits g → shaped g → coord y → coord x → cell_get g y x = Some v →
  v = 0 ∨ v = 1.
Proof.
  intros Hb Hg Hy Hx Hv.
  destruct (cell_get_shaped g _ _ Hg Hy Hx) as (row & v' & Hr & Hv' & Hget).
  pose proof (Forall_lookup_1 _ _ _ _ Hb Hr) as Hrow. simpl in Hrow.
  pose proof (Forall_lookup_1 _ _ _ _ Hrow Hv') as Hc. simpl in Hc.
  congruence.
Qed.

Lemma evolve_grid_bitgrid g :
  shaped g → ∃ g', evolve_grid g = Some g' ∧ bitgrid g'.
Proof.
  intros Hg. destruct (evolve_grid_shaped g Hg) as (g' & He & Hg' & Hc).
  exists g'. split; [done|]. split; [done|].
  apply bits_of_cells; [done|]. intros y x Hy Hx.
  exists (next_state g y x). split; [by apply Hc|apply next_state_bit].
Qed.

(** ** Seeding *)

Lemma byte_at_nonneg bytes_data i :
  0 ≤ i → byte_at bytes_data i = Some (padded_byte bytes_data i).
Proof.
  intros Hi. unfold byte_at, padded_byte.
  destruct (Z.ltb_spec i (Z.of_nat (length bytes_data))) as [Hlt|Hge].
  - rewrite getitem_nonneg by lia.
    by destruct (lookup_lt_is_Some_2 bytes_data (Z.to_nat i)) as [b ->]; [lia|].
  - by rewrite lookup_ge_None_2 by lia.
Qed.

Lemma elem_of_range_down j : j ∈ Py.range 7 (-1) (-1) ↔ 0 ≤ j < 8.
Proof.
  change (Py.range 7 (-1) (-1)) with [7; 6; 5; 4; 3; 2; 1; 0]. split.
  - intros Hj. repeat (apply elem_of_cons in Hj as [->|Hj]; [lia|]).
    by apply elem_of_nil in Hj.
  - intros Hj.
    assert (j = 7 ∨ j = 6 ∨ j = 5 ∨ j = 4 ∨ j = 3 ∨ j = 2 ∨ j = 1 ∨ j = 0)
      as Hcases by lia.
    repeat (destruct Hcases as [->|Hcases]; [by repeat constructor|]).
    subst j. by repeat constructor.
Qed.

(** The pairs [(i, j)] the seeding loops visit. *)
Lemma elem_of_seed_indices (p : Z * Z) :
  p ∈ (i ← Py.range 0 MAX_BYTES 1; pair i <$> Py.range 7 (-1) (-1)) ↔
  0 ≤ p.1 < MAX_BYTES ∧ 0 ≤ p.2 < 8.
Proof.
  rewrite list_elem_of_bind. split.
  - intros (i & Hp & Hi). apply list_elem_of_fmap in Hp as (j & -> & Hj).
    apply elem_of_range_up in Hi. apply elem_of_range_down in Hj. done.
  - intros [Hi Hj]. exists p.1. split; [|by apply elem_of_range_up].
    apply list_elem_of_fmap. exists p.2.
    split; [by destruct p|by apply elem_of_range_down].
Qed.

Lemma seed_target_coord i j :
  0 ≤ i < MAX_BYTES → 0 ≤ j < 8 → coord (seed_y (i, j)) ∧ coord (seed_x (i, j)).
Proof.
  change MAX_BYTES with 128. unfold coord, seed_y, seed_x, SVG_SIZE. simpl.
  intros Hi Hj. split.
  - split; [apply Z.div_pos; lia|]. apply Z.div_lt_upper_bound; lia.
  - apply Z.mod_pos_bound. lia.
Qed.

Lemma seed_bit_shaped bytes_data i j g0 :
  0 ≤ i < MAX_BYTES → 0 ≤ j < 8 →
  seed_bit (padded_byte bytes_data i) i j g0 =
  cell_set g0 (seed_y (i, j)) (seed_x (i, j))
    (seed_state bytes_data (seed_y (i, j)) (seed_x (i, j))).
Proof.
  intros Hi Hj. destruct (seed_target_coord i j Hi Hj) as [Hy Hx].
  unfold coord, seed_y, seed_x in Hy, Hx. simpl in Hy, Hx.
  unfold seed_bit, in_grid, seed_state, seed_y, seed_x. simpl.
  destruct (Z.ltb_spec ((i * 8 + (7 - j)) `div` SVG_SIZE) SVG_SIZE); [|lia].
  destruct (Z.ltb_spec ((i * 8 + (7 - j)) `mod` SVG_SIZE) SVG_SIZE); [|lia].
  simpl. f_equal. unfold SVG_SIZE.
  rewrite (Z.mul_comm _ 32), <- Z.div_mod by lia.
  replace ((i * 8 + (7 - j)) `div` 8) with i
    by (apply Z.div_unique with (7 - j); lia).
  replace ((i * 8 + (7 - j)) `mod` 8) with (7 - j)
    by (apply Z.mod_unique with i; lia).
  do 2 f_equal. lia.
Qed.

Lemma seed_bytes_shaped bytes_data :
  ∃ g, seed_bytes bytes_data = Some g ∧ shaped g ∧
       ∀ y x, coord y → coord x →
              cell_get g y x = Some (seed_state bytes_data y x).
Proof.
  unfold seed_bytes.
  rewrite (for_ext _ _ (λ i grid,
    Py.for_ (Py.range 7 (-1) (-1))
      (λ j grid, seed_bit (padded_byte bytes_data i) i j grid) grid)).
  2:{ intros i g0 Hi. apply elem_of_range_up in Hi.
      by rewrite byte_at_nonneg by lia. }
  rewrite for_nested.
  destruct (for_fill
    (i ← Py.range 0 MAX_BYTES 1; pair i <$> Py.range 7 (-1) (-1))
    seed_y seed_x (seed_state bytes_data)
    (λ p s0, seed_bit (padded_byte bytes_data p.1) p.1 p.2 s0) create_grid)
    as (g & Hfor & Hg & Hcells).
  - apply create_grid_shaped.
  - intros [i j] Hk. apply elem_of_seed_indices in Hk as [Hi Hj].
    by apply seed_target_coord.
  - intros [i j] g0 Hk _. apply elem_of_seed_indices in Hk as [Hi Hj].
    by apply seed_bit_shaped.
  - exists g. split; [done|]. split; [done|].
    intros y x Hy Hx. apply Hcells; [done..|].
    set (idx := y * 32 + x).
    exists (idx `div` 8, 7 - idx `mod` 8). unfold coord, SVG_SIZE in Hy, Hx.
    pose proof (Z.mod_pos_bound idx 8 eq_refl) as Hm.
    assert (0 ≤ idx `div` 8 < 128) as Hd.
    { split; [apply Z.div_pos; lia|]. apply Z.div_lt_upper_bound; lia. }
    split; [apply elem_of_seed_indices; simpl; change MAX_BYTES with 128; lia|].
    unfold seed_y, seed_x, SVG_SIZE. simpl.
    replace (idx `div` 8 * 8 + (7 - (7 - idx `mod` 8))) with idx
      by (rewrite (Z.div_mod idx 8) at 1; lia).
    split.
    + symmetry. apply Z.div_unique with x; lia.
    + symmetry. apply Z.mod_unique with y; lia.
Qed.

Lemma seed_bytes_ext bs1 bs2 :
  (∀ i, 0 ≤ i < MAX_BYTES → padded_byte bs1 i = padded_byte bs2 i) →
  seed_bytes bs1 = seed_bytes bs2.
Proof.
  intros Hagree. unfold seed_bytes. apply for_ext.
  intros i g0 Hi. apply elem_of_range_up in Hi.
  rewrite !byte_at_nonneg by lia. by rewrite Hagree.
Qed.

(** Only the first [MAX_BYTES] bytes are read. *)
Lemma seed_bytes_take bytes_data :
  seed_bytes (take (Z.to_nat MAX_BYTES) bytes_data) = seed_bytes bytes_data.
Proof.
  apply seed_bytes_ext. intros i Hi. unfold padded_byte.
  by rewrite lookup_take_lt by lia.
Qed.

(** ** Running the automaton *)

Lemma run_nonpos g steps : steps ≤ 0 → run g steps = Some g.
Proof.
  intros Hs. unfold run. rewrite range_up.
  by replace (Z.to_nat steps) with 0%nat by lia.
Qed.

(** The loop of [run] does not look at its counter. *)
Lemma run_iter g steps :
  run g steps = Nat.iter (Z.to_nat steps) (λ r, r ≫= evolve_grid) (Some g).
Proof.
  unfold run. rewrite range_up, for_fmap.
  generalize 0%nat as start. generalize (Z.to_nat steps) as n. clear steps.
  intros n. revert g. induction n as [|n IH]; intros g start; [done|].
  rewrite Nat.iter_succ_r. simpl.
  destruct (evolve_grid g) as [g1|]; simpl; [apply IH|].
  clear. induction n as [|n IH]; simpl; [done|]. by rewrite <- IH.
Qed.

Lemma run_bitgrid g steps :
  bitgrid g → ∃ g', run g steps = Some g' ∧ bitgrid g'.
Proof.
  intros Hg. rewrite run_iter.
  induction (Z.to_nat steps) as [|n (g1 & Hrun & Hg1)]; simpl; [by exists g|].
  rewrite Hrun. simpl. apply evolve_grid_bitgrid, Hg1.
Qed.

(** ** Checking a property on every cell *)

(** A boolean property checked on the whole grid holds at every coordinate. *)
Lemma forall_coords (P : Z → Z → bool) :
  forallb (λ y, forallb (P y) (Py.range 0 SVG_SIZE 1)) (Py.range 0 SVG_SIZE 1)
    = true →
  ∀ y x, coord y → coord x → P y x = true.
Proof.
  intros HP y x Hy Hx. rewrite forallb_forall in HP.
  specialize (HP y). rewrite forallb_forall in HP.
  apply HP; apply list_elem_of_In; by apply elem_of_range_up.
Qed.

(** * The properties *)

(** ** The evolution rule and the neighbours on the torus *)

Lemma wrap_inj k d d' :
  -1 ≤ d ≤ 1 → -1 ≤ d' ≤ 1 →
  (k + d) `mod` SVG_SIZE = (k + d') `mod` SVG_SIZE → d = d'.
Proof.
  unfold SVG_SIZE. intros Hd Hd' Heq.
  pose proof (Z.div_mod (k + d) 32). pose proof (Z.div_mod (k + d') 32).
  pose proof (Z.mod_pos_bound (k + d) 32). lia.
Qed.

Lemma offsets_range d : d ∈ offsets → -1 ≤ d.1 ≤ 1 ∧ -1 ≤ d.2 ≤ 1.
Proof.
  rewrite offsets_eq. intros Hd.
  repeat (apply elem_of_cons in Hd as [->|Hd]; [simpl; lia|]).
  by apply elem_of_nil in Hd.
Qed.

Lemma neighbor_cells_NoDup x y : NoDup (neighbor_cells x y).
Proof.
  unfold neighbor_cells. apply NoDup_fmap_2_strong.
  - intros [d1 d2] [e1 e2] Hd He Heq.
    apply offsets_range in Hd, He. simpl in *.
    injection Heq as H1 H2. f_equal; eapply wrap_inj; try eassumption; lia.
  - rewrite offsets_eq. by apply (bool_decide_unpack _).
Qed.

Lemma neighbor_cells_coord x y c :
  c ∈ neighbor_cells x y → coord c.1 ∧ coord c.2.
Proof.
  unfold neighbor_cells. intros Hc.
  apply list_elem_of_fmap in Hc as (d & -> & _). split; apply wrap_coord.
Qed.

Lemma neighbor_cells_read g x y :
  shaped g →
  mapM (λ c, cell_get g c.2 c.1) (neighbor_cells x y)
  = Some ((λ c, cell g c.2 c.1) <$> neighbor_cells x y).
Proof.
  intros Hg. apply mapM_Some, Forall2_fmap_r, Forall_Forall2_diag.
  apply Forall_forall. intros c Hc.
  apply neighbor_cells_coord in Hc as [Hx Hy]. by apply cell_get_cell.
Qed.

(** C1. For every 32x32 grid of 0/1 cells and every cell [(x, y)],
    [evolve_grid] returns a grid whose cell [(x, y)] is live exactly when
    the old cell is live with 2 or 3 live neighbours, or dead with exactly 3;
    in every other case the new cell is dead. The number [n] of live
    neighbours is the toroidal count: the sum of the states [vs] of the
    eight cells around [(x, y)], coordinates taken modulo 32, which is also
    what [get_neighbors] returns. *)
Theorem evolve_grid_rule g x y :
  bitgrid g → coord x → coord y →
  ∃ g' c vs n,
    evolve_grid g = Some g' ∧
    cell_get g y x = Some c ∧
    mapM (λ p, cell_get g p.2 p.1) (neighbor_cells x y) = Some vs ∧
    n = foldr Z.add 0 vs ∧
    get_neighbors g x y = Some n ∧
    (cell_get g' y x = Some 1 ∨ cell_get g' y x = Some 0) ∧
    (cell_get g' y x = Some 1 ↔
       (c = 1 ∧ (n = 2 ∨ n = 3)) ∨ (c = 0 ∧ n = 3)) ∧
    (cell_get g' y x = Some 0 ↔
       ¬ ((c = 1 ∧ (n = 2 ∨ n = 3)) ∨ (c = 0 ∧ n = 3))).
Proof.
  intros [Hg Hb] Hx Hy.
  destruct (evolve_grid_shaped g Hg) as (g' & He & _ & Hc).
  exists g', (cell g y x), ((λ p, cell g p.2 p.1) <$> neighbor_cells x y),
    (neighbor_sum g x y).
  split; [done|]. split; [by apply cell_get_cell|].
  split; [by apply neighbor_cells_read|]. split; [done|].
  split; [by apply get_neighbors_shaped|].
  rewrite Hc by done.
  destruct (cells_of_bits g y x (cell g y x) Hb Hg Hy Hx) as [Hc0|Hc1];
    [by apply cell_get_cell| |].
  - unfold next_state. rewrite Hc0. simpl.
    destruct (Z.eqb_spec (neighbor_sum g x y) 3) as [->|Hn].
    + split; [by left|]. split; [split; [intros _; right; done|done]|].
      split; [done|]. intros Hno. exfalso. apply Hno. by right.
    + split; [by right|]. split.
      * split; [done|]. intros [[? _]|[_ ?]]; lia.
      * split; [|done]. intros _ [[? _]|[_ ?]]; lia.
  - unfold next_state. rewrite Hc1. simpl. case_bool_decide as Hn.
    + assert (neighbor_sum g x y = 2 ∨ neighbor_sum g x y = 3) as Hn'.
      { apply elem_of_cons in Hn as [->|Hn]; [by left|].
        apply elem_of_cons in Hn as [->|Hn]; [by right|].
        by apply elem_of_nil in Hn. }
      split; [by left|]. split; [split; [intros _; by left|done]|].
      split; [done|]. intros Hno. exfalso. apply Hno. by left.
    + assert (¬ (neighbor_sum g x y = 2 ∨ neighbor_sum g x y = 3)) as Hn'.
      { intros [Hn'|Hn']; apply Hn; rewrite Hn'; by repeat constructor. }
      split; [by right|]. split.
      * split; [done|]. intros [[_ ?]|[? _]]; [done|lia].
      * split; [|done]. intros _ [[_ ?]|[? _]]; [done|lia].
Qed.

(** The middle cell of a blinker, [(1, 1)], is live and among the eight
    cells around it exactly [(1, 0)] and [(1, 2)] are: the count is 2 and the
    cell survives. Its left neighbour [(0, 1)] is dead with the three cells
    of the blinker around it, and comes to life. *)
Lemma evolve_grid_rule_witness :
  bitgrid blinker ∧ coord 1 ∧ coord 1 ∧ coord 0 ∧
  ∃ g',
    evolve_grid blinker = Some g' ∧
    cell_get blinker 1 1 = Some 1 ∧
    mapM (λ p, cell_get blinker p.2 p.1) (neighbor_cells 1 1)
      = Some [0; 0; 0; 1; 1; 0; 0; 0] ∧
    get_neighbors blinker 1 1 = Some 2 ∧
    cell_get g' 1 1 = Some 1 ∧
    get_neighbors blinker 0 1 = Some 3 ∧
    cell_get g' 1 0 = Some 1.
Proof.
  assert (Hb : bitgrid blinker)
    by (refine (bool_decide_unpack _ _); vm_compute; exact I).
  assert (H1 : coord 1) by (unfold coord, SVG_SIZE; lia).
  assert (H0 : coord 0) by (unfold coord, SVG_SIZE; lia).
  split; [exact Hb|]. split; [exact H1|]. split; [exact H1|].
  split; [exact H0|].
  destruct (evolve_grid_rule blinker 1 1 Hb H1 H1)
    as (g' & c & vs & n & He & Hc & Hvs & Hn & Hget & _ & Hlive & _).
  destruct (evolve_grid_rule blinker 0 1 Hb H0 H1)
    as (g2 & c2 & vs2 & n2 & He2 & Hc2 & Hvs2 & Hn2 & Hget2 & _ & Hlive2 & _).
  rewrite He in He2. injection He2 as <-.
  injection Hc as <-. injection Hvs as <-. simpl in Hn. subst n.
  injection Hc2 as <-. injection Hvs2 as <-. simpl in Hn2. subst n2.
  exists g'. split; [exact He|]. split; [reflexivity|].
  split; [reflexivity|]. split; [exact Hget|].
  split; [apply Hlive; left; split; [reflexivity|left; reflexivity]|].
  split; [exact Hget2|].
  apply Hlive2. right. split; reflexivity.
Defined.

(** C2. On a 32x32 grid the neighbour count of [(x, y)] is the sum of the
    states of exactly the 8 cells at the offsets [(dx, dy)],
    [dx, dy ∈ {-1,0,1}] without [(0,0)], both coordinates taken modulo 32.
    In particular [(0,0)] is one of the neighbours of each of [(31,31)],
    [(31,0)] and [(0,31)], and when it is the only live cell each of them
    counts one live neighbour. *)
Theorem get_neighbors_torus g x y :
  shaped g → coord x → coord y →
  (∃ vs,
     mapM (λ c, cell_get g c.2 c.1) (neighbor_cells x y) = Some vs ∧
     length (neighbor_cells x y) = 8%nat ∧
     NoDup (neighbor_cells x y) ∧
     get_neighbors g x y = Some (foldr Z.add 0 vs)) ∧
  ((0, 0) ∈ neighbor_cells 31 31 ∧
   (0, 0) ∈ neighbor_cells 31 0 ∧
   (0, 0) ∈ neighbor_cells 0 31) ∧
  ((∀ b a, coord b → coord a →
      cell_get g b a = Some (if decide ((a, b) = (0, 0)) then 1 else 0)) →
   get_neighbors g 31 31 = Some 1 ∧
   get_neighbors g 31 0 = Some 1 ∧
   get_neighbors g 0 31 = Some 1).
Proof.
  intros Hg Hx Hy. split; [|split].
  - exists ((λ c, cell g c.2 c.1) <$> neighbor_cells x y).
    split; [by apply neighbor_cells_read|]. split; [done|].
    split; [apply neighbor_cells_NoDup|]. by apply get_neighbors_shaped.
  - by repeat split; apply (bool_decide_unpack _).
  - intros Hone.
    assert (Hcell : ∀ b a, coord b → coord a →
              cell g b a = if decide ((a, b) = (0, 0)) then 1 else 0).
    { intros b a Hb Ha. unfold cell. by rewrite Hone. }
    rewrite !get_neighbors_shaped by done. unfold neighbor_sum.
    repeat split; f_equal;
      vm_compute neighbor_cells; cbn [fmap list_fmap foldr fst snd];
      rewrite !Hcell by (unfold coord, SVG_SIZE; lia); done.
Qed.

(** On the grid whose only live cell is the corner [(0, 0)]. *)
Lemma get_neighbors_torus_witness :
  shaped corner_grid ∧ coord 31 ∧ coord 31 ∧
  get_neighbors corner_grid 31 31 = Some 1 ∧
  get_neighbors corner_grid 31 0 = Some 1 ∧
  get_neighbors corner_grid 0 31 = Some 1.
Proof.
  assert (Hg : shaped corner_grid)
    by (refine (bool_decide_unpack _ _); vm_compute; exact I).
  assert (Hc : coord 31) by (unfold coord, SVG_SIZE; lia).
  split; [exact Hg|]. split; [exact Hc|]. split; [exact Hc|].
  refine (proj2 (proj2 (get_neighbors_torus corner_grid 31 31 Hg Hc Hc)) _).
  intros b a Hb Ha.
  pose proof (forall_coords (λ b a, bool_decide
    (cell_get corner_grid b a
     = Some (if decide ((a, b) = (0, 0)) then 1 else 0)))) as Hall.
  specialize (Hall ltac:(vm_compute; reflexivity) b a Hb Ha).
  exact (bool_decide_unpack _ (Is_true_true_2 _ Hall)).
Defined.

(** ** The seed grid *)

Lemma zero_pad_lookup bytes_data i :
  0 ≤ i < MAX_BYTES →
  zero_pad bytes_data !! Z.to_nat i = Some (padded_byte bytes_data i).
Proof.
  intros Hi. unfold zero_pad, padded_byte. change MAX_BYTES with 128 in *.
  destruct (decide (Z.to_nat i < length bytes_data)%nat) as [Hlt|Hge].
  - rewrite lookup_app_l by done.
    by destruct (lookup_lt_is_Some_2 bytes_data (Z.to_nat i) Hlt) as [b ->].
  - rewrite lookup_app_r by lia.
    rewrite (lookup_ge_None_2 bytes_data) by lia. simpl.
    apply lookup_replicate_2. lia.
Qed.

Lemma land_shiftr_bit byte j :
  0 ≤ j → Z.land (Z.shiftr byte j) 1 = Z.b2z (Z.testbit byte j).
Proof.
  intros Hj. change 1 with (Z.ones 1) at 1. rewrite Z.land_ones by lia.
  change (2 ^ 1) with 2. rewrite <- Z.bit0_mod, Z.shiftr_spec by lia.
  by rewrite Z.add_0_l.
Qed.

(** The seed grid of a byte sequence, cell by cell, in the bit numbering of
    the specification. *)
Lemma seed_bytes_bits bytes_data :
  ∃ g, seed_bytes bytes_data = Some g ∧ shaped g ∧
       ∀ i j, 0 ≤ i < MAX_BYTES → 0 ≤ j < 8 →
         cell_get g ((i * 8 + j) `div` SVG_SIZE) ((i * 8 + j) `mod` SVG_SIZE)
         = Some (msb_bit (padded_byte bytes_data i) j).
Proof.
  destruct (seed_bytes_shaped bytes_data) as (g & Hs & Hg & Hc).
  exists g. split; [done|]. split; [done|]. intros i j Hi Hj.
  destruct (seed_target_coord i (7 - j) Hi) as [Hy Hx]; [lia|].
  unfold seed_y, seed_x in Hy, Hx. simpl in Hy, Hx.
  replace (7 - (7 - j)) with j in Hy, Hx by lia.
  rewrite Hc by done. f_equal. unfold seed_state, msb_bit, SVG_SIZE.
  rewrite (Z.mul_comm _ 32), <- Z.div_mod by lia.
  replace ((i * 8 + j) `div` 8) with i by (apply Z.div_unique with j; lia).
  replace ((i * 8 + j) `mod` 8) with j by (apply Z.mod_unique with i; lia).
  apply land_shiftr_bit. lia.
Qed.

(** C3. The seed grid of an input string holds, at cell
    [x = (i*8+j) % 32], [y = (i*8+j) // 32], bit [j] (0 the most
    significant) of byte [i] of the UTF-8 bytes of the string padded with
    zeros to 128 bytes; and the seed grid of ["A"] has exactly the two live
    cells [(1,0)] and [(7,0)]. *)
Theorem seed_grid_mapping input_text bytes_data :
  Py.encode_utf8 input_text = Some bytes_data →
  (∃ g, seed_grid input_text = Some g ∧ shaped g ∧
        length (zero_pad bytes_data) = Z.to_nat (Z.max 128 (Z.of_nat (length bytes_data))) ∧
        ∀ i j, 0 ≤ i < 128 → 0 ≤ j < 8 →
          ∃ byte, zero_pad bytes_data !! Z.to_nat i = Some byte ∧
                  cell_get g ((i * 8 + j) `div` 32) ((i * 8 + j) `mod` 32)
                  = Some (msb_bit byte j)) ∧
  (∃ gA, seed_grid (Py.str "A") = Some gA ∧ bitgrid gA ∧
         ∀ y x, coord y → coord x →
           cell_get gA y x
           = Some (if decide ((x, y) = (1, 0) ∨ (x, y) = (7, 0)) then 1 else 0)).
Proof.
  intros Henc. split.
  - destruct (seed_bytes_bits bytes_data) as (g & Hs & Hg & Hc).
    exists g. unfold seed_grid. rewrite Henc. simpl.
    split; [done|]. split; [done|]. split.
    { unfold zero_pad. rewrite length_app, length_replicate.
      change MAX_BYTES with 128. lia. }
    intros i j Hi Hj. exists (padded_byte bytes_data i).
    split; [by apply zero_pad_lookup|]. by apply Hc.
  - destruct (seed_grid (Py.str "A")) as [gA|] eqn:HA; [|by vm_compute in HA].
    exists gA. split; [done|].
    assert (gA = grid_of [(1, 0); (7, 0)]) as ->
      by (vm_compute in HA; injection HA as <-; reflexivity).
    split; [by apply (bool_decide_unpack _); vm_compute|].
    intros y x Hy Hx.
    pose proof (forall_coords (λ y x, bool_decide
      (cell_get (grid_of [(1, 0); (7, 0)]) y x
       = Some (if decide ((x, y) = (1, 0) ∨ (x, y) = (7, 0)) then 1 else 0))))
      as Hall.
    specialize (Hall ltac:(vm_compute; reflexivity) y x Hy Hx).
    exact (bool_decide_unpack _ (Is_true_true_2 _ Hall)).
Qed.

(** The euro sign is the three bytes E2 82 AC; the first of them fills the
    first eight cells of row 0. *)
Lemma seed_grid_mapping_witness :
  Py.encode_utf8 [0x20AC] = Some [0xE2; 0x82; 0xAC] ∧
  ∃ g, seed_grid [0x20AC] = Some g ∧
       cell_get g 0 0 = Some 1 ∧ cell_get g 0 1 = Some 1 ∧
       cell_get g 0 2 = Some 1 ∧ cell_get g 0 3 = Some 0.
Proof.
  split; [reflexivity|].
  destruct (seed_grid_mapping [0x20AC] [0xE2; 0x82; 0xAC] eq_refl)
    as [(g & Hs & _ & _ & Hc) _].
  exists g. split; [exact Hs|].
  assert (Hi : 0 ≤ 0 < 128) by lia.
  destruct (Hc 0 0 Hi ltac:(lia)) as (b0 & Hb0 & H0).
  destruct (Hc 0 1 Hi ltac:(lia)) as (b1 & Hb1 & H1).
  destruct (Hc 0 2 Hi ltac:(lia)) as (b2 & Hb2 & H2).
  destruct (Hc 0 3 Hi ltac:(lia)) as (b3 & Hb3 & H3).
  injection Hb0 as <-. injection Hb1 as <-.
  injection Hb2 as <-. injection Hb3 as <-.
  repeat split; assumption.
Defined.

(** C8. For [SVG_SIZE = 32] no bit is lost: [MAX_BYTES] is
    [ceil(32*32/8) = 128] bytes, that is 1024 bits for 1024 cells; for every
    input string, the bit extracted at iteration [(i, j)] of the seeding
    loops (padding bits included) passes the guard of line 92, no other
    iteration writes to its cell, and the seed grid holds it there. *)
Theorem seed_no_bit_lost input_text bytes_data i j :
  Py.encode_utf8 input_text = Some bytes_data →
  0 ≤ i < MAX_BYTES → 0 ≤ j < 8 →
  let bit_index := i * 8 + (7 - j) in
  let x := bit_index `mod` SVG_SIZE in
  let y := bit_index `div` SVG_SIZE in
  MAX_BYTES = 128 ∧
  MAX_BYTES * 8 = SVG_SIZE * SVG_SIZE ∧
  length (i ← Py.range 0 MAX_BYTES 1; pair i <$> Py.range 7 (-1) (-1))
    = Z.to_nat (SVG_SIZE * SVG_SIZE) ∧
  in_grid y x = true ∧
  (∀ i' j', 0 ≤ i' < MAX_BYTES → 0 ≤ j' < 8 →
     let bit_index' := i' * 8 + (7 - j') in
     bit_index' `mod` SVG_SIZE = x → bit_index' `div` SVG_SIZE = y →
     i' = i ∧ j' = j) ∧
  ∃ byte g,
    byte_at bytes_data i = Some byte ∧
    seed_grid input_text = Some g ∧
    cell_get g y x = Some (Z.land (Z.shiftr byte j) 1).
Proof.
  intros Henc Hi Hj bit_index x y.
  destruct (seed_target_coord i j Hi Hj) as [Hy Hx].
  change (coord y) in Hy. change (coord x) in Hx. unfold coord in Hy, Hx.
  split; [done|]. split; [done|]. split; [done|]. split; [|split].
  - unfold in_grid.
    destruct (Z.ltb_spec y SVG_SIZE); [|lia].
    destruct (Z.ltb_spec x SVG_SIZE); [done|lia].
  - intros i' j' Hi' Hj' bit_index' Hx' Hy'.
    assert (bit_index' = bit_index) as Heq.
    { rewrite (Z.div_mod bit_index' SVG_SIZE), (Z.div_mod bit_index SVG_SIZE)
        by done. fold x y. by rewrite Hx', Hy'. }
    unfold bit_index', bit_index in Heq. lia.
  - destruct (seed_bytes_shaped bytes_data) as (g & Hs & Hg & Hc).
    exists (padded_byte bytes_data i), g.
    split; [apply byte_at_nonneg; lia|].
    split; [unfold seed_grid; by rewrite Henc|].
    rewrite Hc by done. f_equal.
    unfold seed_state, x, y, bit_index, SVG_SIZE.
    rewrite (Z.mul_comm _ 32), <- Z.div_mod by lia.
    replace ((i * 8 + (7 - j)) `div` 8) with i
      by (apply Z.div_unique with (7 - j); lia).
    replace ((i * 8 + (7 - j)) `mod` 8) with (7 - j)
      by (apply Z.mod_unique with i; lia).
    do 2 f_equal. lia.
Qed.

(** With 128 letters [a] (byte 0x61) the last bit of the last byte is 1 and
    lands in the last cell, [(31, 31)]; with the single letter [a] the same
    cell would receive a padding bit. *)
Lemma seed_no_bit_lost_witness :
  Py.encode_utf8 (replicate 128 97) = Some (replicate 128 97) ∧
  0 ≤ 127 < MAX_BYTES ∧ 0 ≤ 0 < 8 ∧ in_grid 31 31 = true ∧
  ∃ g, seed_grid (replicate 128 97) = Some g ∧ cell_get g 31 31 = Some 1.
Proof.
  assert (Hi : 0 ≤ 127 < MAX_BYTES) by (change MAX_BYTES with 128; lia).
  assert (Hj : 0 ≤ 0 < 8) by lia.
  split; [reflexivity|]. split; [exact Hi|]. split; [exact Hj|].
  destruct (seed_no_bit_lost (replicate 128 97) (replicate 128 97) 127 0
              eq_refl Hi Hj)
    as (_ & _ & _ & Hguard & _ & byte & g & Hbyte & Hs & Hc).
  split; [exact Hguard|]. exists g. split; [exact Hs|].
  injection Hbyte as <-. exact Hc.
Defined.

(** C9. Seeding from the empty string and running zero steps gives a 32x32
    grid all of whose cells are 0. *)
Theorem empty_input_all_dead :
  ∃ g, generate_png_art (Py.str "") 0 = Some g ∧ shaped g ∧
       Forall (Forall (λ c, c = 0)) g ∧
       ∀ y x, coord y → coord x → cell_get g y x = Some 0.
Proof.
  exists create_grid. split; [by vm_compute|].
  split; [apply create_grid_shaped|].
  split; [by apply (bool_decide_unpack _); vm_compute|].
  intros y x Hy Hx.
  pose proof (forall_coords
    (λ y x, bool_decide (cell_get create_grid y x = Some 0))) as Hall.
  specialize (Hall ltac:(vm_compute; reflexivity) y x Hy Hx).
  exact (bool_decide_unpack _ (Is_true_true_2 _ Hall)).
Qed.

(** C10. The seed grid, and so the grid after any number of steps, depends
    only on the first 128 bytes of the UTF-8 encoding of the input. *)
Theorem seed_depends_on_first_bytes text1 text2 bytes1 bytes2 steps :
  Py.encode_utf8 text1 = Some bytes1 →
  Py.encode_utf8 text2 = Some bytes2 →
  take 128 bytes1 = take 128 bytes2 →
  seed_grid text1 = seed_grid text2 ∧
  generate_png_art text1 steps = generate_png_art text2 steps.
Proof.
  intros H1 H2 Hagree.
  assert (seed_grid text1 = seed_grid text2) as Hseed.
  { unfold seed_grid. rewrite H1, H2. simpl.
    rewrite <- (seed_bytes_take bytes1), <- (seed_bytes_take bytes2).
    change (Z.to_nat MAX_BYTES) with 128%nat. by rewrite Hagree. }
  split; [done|]. unfold generate_png_art. by rewrite Hseed.
Qed.

(** 128 letters [a] followed by [b], and followed by the euro sign. *)
Lemma seed_depends_on_first_bytes_witness :
  seed_grid (replicate 128 97 ++ [98])
  = seed_grid (replicate 128 97 ++ [0x20AC]) ∧
  generate_png_art (replicate 128 97 ++ [98]) 3
  = generate_png_art (replicate 128 97 ++ [0x20AC]) 3.
Proof.
  apply (seed_depends_on_first_bytes _ _
           (replicate 128 97 ++ [98])
           (replicate 128 97 ++ [0xE2; 0x82; 0xAC]));
    reflexivity.
Defined.

(** ** Running the steps *)

(** C4. Zero steps is the identity: the loop of lines 96-97 over
    [range(0)] returns the grid it was given, whatever that grid is. *)
Theorem run_zero_identity g : run g 0 = Some g.
Proof. by apply run_nonpos. Qed.

(** C5, as the program has it. A negative step count is not rejected:
    [range(steps)] is then empty, the loop body never runs, and the grid
    comes back unchanged; the whole pipeline returns the seed grid. *)
Theorem run_negative_steps g steps :
  steps < 0 →
  run g steps = Some g ∧
  ∀ input_text, generate_png_art input_text steps = seed_grid input_text.
Proof.
  intros Hs. split; [apply run_nonpos; lia|].
  intros input_text. unfold generate_png_art.
  destruct (seed_grid input_text) as [g0|]; simpl; [|done].
  apply run_nonpos. lia.
Qed.

Lemma run_negative_steps_witness :
  -1 < 0 ∧ run blinker (-1) = Some blinker.
Proof.
  assert (Hs : -1 < 0) by lia.
  split; [exact Hs|]. exact (proj1 (run_negative_steps blinker (-1) Hs)).
Defined.

(** C5, as stated, fails: a run of [-1] steps returns a grid. *)
Lemma run_negative_not_rejected :
  -1 < 0 ∧ run create_grid (-1) = Some create_grid ∧
  ¬ (∀ g steps, steps < 0 → run g steps = None).
Proof.
  split; [lia|]. split; [reflexivity|].
  intros Hrej. specialize (Hrej create_grid (-1) ltac:(lia)).
  by vm_compute in Hrej.
Qed.

Lemma land_1_bit z : Z.land z 1 = 0 ∨ Z.land z 1 = 1.
Proof.
  pose proof (Z.land_ones z 1) as Hland. change (Z.ones 1) with 1 in Hland.
  change (2 ^ 1) with 2 in Hland. pose proof (Z.mod_pos_bound z 2). lia.
Qed.

Lemma seed_bytes_bitgrid bytes_data :
  ∃ g, seed_bytes bytes_data = Some g ∧ bitgrid g.
Proof.
  destruct (seed_bytes_shaped bytes_data) as (g & Hs & Hg & Hc).
  exists g. split; [done|]. split; [done|].
  apply bits_of_cells; [done|]. intros y x Hy Hx.
  exists (seed_state bytes_data y x). split; [by apply Hc|apply land_1_bit].
Qed.

(** C7. The shape is an invariant of evolution: on a 32x32 grid of 0/1
    cells [evolve_grid] returns a grid of 32 rows of 32 cells, each 0 or 1,
    and so does any number of steps. *)
Theorem evolve_grid_shape_invariant g :
  bitgrid g →
  (∃ g', evolve_grid g = Some g' ∧
         length g' = 32%nat ∧ Forall (λ row, length row = 32%nat) g' ∧
         Forall (Forall (λ c, c = 0 ∨ c = 1)) g') ∧
  (∀ steps, ∃ g', run g steps = Some g' ∧ bitgrid g').
Proof.
  intros Hg. split.
  - destruct (evolve_grid_bitgrid g (proj1 Hg)) as (g' & He & [Hl Hr] & Hb).
    by exists g'.
  - intros steps. by apply run_bitgrid.
Qed.

Lemma evolve_grid_shape_invariant_witness :
  bitgrid blinker ∧
  (∃ g', evolve_grid blinker = Some g' ∧ bitgrid g') ∧
  (∃ g', run blinker 4 = Some g' ∧ bitgrid g').
Proof.
  assert (Hb : bitgrid blinker)
    by (refine (bool_decide_unpack _ _); vm_compute; exact I).
  split; [exact Hb|].
  destruct (evolve_grid_shape_invariant blinker Hb) as [Hone Hmany].
  split; [|exact (Hmany 4)].
  destruct Hone as (g' & He & Hl & Hr & Hc). exists g'.
  split; [exact He|]. split; [split; [exact Hl|exact Hr]|exact Hc].
Defined.

(** * Further properties of the automaton *)

(** ** More on counting neighbours *)

Lemma cell_bit g y x : bitgrid g → coord y → coord x → cell g y x = 0 ∨ cell g y x = 1.
Proof.
  intros [Hg Hb] Hy Hx.
  apply (cells_of_bits g y x); [done..|]. by apply cell_get_cell.
Qed.

Lemma get_neighbors_bounds_aux g x y :
  bitgrid g → 0 ≤ neighbor_sum g x y.
Proof.
  intros Hg. unfold neighbor_sum, neighbor_cells. rewrite offsets_eq.
  cbn [fmap list_fmap foldr fst snd].
  repeat match goal with
  | |- context [cell g ((?b + ?d2) `mod` SVG_SIZE) ((?a + ?d1) `mod` SVG_SIZE)] =>
      let H := fresh in
      pose proof (cell_bit g _ _ Hg (wrap_coord b d2) (wrap_coord a d1)) as H;
      generalize dependent (cell g ((b + d2) `mod` SVG_SIZE)
                                   ((a + d1) `mod` SVG_SIZE)); intros
  end.
  lia.
Qed.

(** X1. On a 32x32 grid of 0/1 cells the neighbour count exists for any
    integer arguments and lies between 0 and 8. *)
Theorem get_neighbors_bounds g x y :
  bitgrid g → ∃ n, get_neighbors g x y = Some n ∧ 0 ≤ n ≤ 8.
Proof.
  intros Hg. exists (neighbor_sum g x y).
  split; [apply get_neighbors_shaped, Hg|].
  unfold neighbor_sum, neighbor_cells. rewrite offsets_eq.
  cbn [fmap list_fmap foldr fst snd].
  repeat match goal with
  | |- context [cell g ((?b + ?d2) `mod` SVG_SIZE) ((?a + ?d1) `mod` SVG_SIZE)] =>
      let H := fresh in
      pose proof (cell_bit g _ _ Hg (wrap_coord b d2) (wrap_coord a d1)) as H;
      generalize dependent (cell g ((b + d2) `mod` SVG_SIZE)
                                   ((a + d1) `mod` SVG_SIZE)); intros
  end.
  lia.
Qed.

Lemma get_neighbors_bounds_witness :
  bitgrid blinker ∧ ∃ n, get_neighbors blinker 1 1 = Some n ∧ 0 ≤ n ≤ 8.
Proof.
  assert (Hb : bitgrid blinker)
    by (refine (bool_decide_unpack _ _); vm_compute; exact I).
  split; [exact Hb|]. exact (get_neighbors_bounds blinker 1 1 Hb).
Defined.

Lemma wrap_mod k d :
  (k `mod` SVG_SIZE + d + SVG_SIZE) `mod` SVG_SIZE
  = (k + d + SVG_SIZE) `mod` SVG_SIZE.
Proof.
  unfold SVG_SIZE. rewrite <- !Z.add_assoc. by rewrite Zplus_mod_idemp_l.
Qed.

(** X2. The arguments of [get_neighbors] are coordinates on the torus:
    for every grid and all integers [x] and [y], in range or not, the count
    at [(x, y)] is the count at [(x mod 32, y mod 32)]. *)
Theorem get_neighbors_periodic (g : Grid) x y :
  get_neighbors g x y = get_neighbors g (x `mod` SVG_SIZE) (y `mod` SVG_SIZE).
Proof.
  unfold get_neighbors. change (Py.range (-1) 2 1) with [-1; 0; 1].
  cbn [Py.for_ Z.eqb andb]. by rewrite !wrap_mod.
Qed.

Lemma not_neighbor_of_itself x y : coord x → coord y → (x, y) ∉ neighbor_cells x y.
Proof.
  intros Hx Hy Hin. unfold neighbor_cells in Hin.
  apply list_elem_of_fmap in Hin as ([d1 d2] & Heq & Hd).
  pose proof (offsets_range _ Hd) as [H1 H2]. simpl in *.
  injection Heq as Ex Ey. unfold coord in *.
  assert (d1 = 0).
  { apply (wrap_inj x); [done|lia|]. rewrite <- Ex, Z.add_0_r.
    unfold SVG_SIZE in *. by rewrite Z.mod_small. }
  assert (d2 = 0).
  { apply (wrap_inj y); [done|lia|]. rewrite <- Ey, Z.add_0_r.
    unfold SVG_SIZE in *. by rewrite Z.mod_small. }
  subst. rewrite offsets_eq in Hd.
  repeat (apply elem_of_cons in Hd as [Hd|Hd]; [done|]).
  by apply elem_of_nil in Hd.
Qed.

(** X3. A cell is not its own neighbour: storing any value at [(x, y)]
    leaves the neighbour count of [(x, y)] as it was. *)
Theorem get_neighbors_ignores_centre g g' x y v :
  shaped g → coord x → coord y →
  cell_set g y x v = Some g' →
  get_neighbors g' x y = get_neighbors g x y.
Proof.
  intros Hg Hx Hy Hset.
  destruct (cell_set_shaped g y x v Hg Hy Hx) as (g1 & Hset1 & Hg1 & _ & Hold).
  rewrite Hset in Hset1. injection Hset1 as <-.
  rewrite !get_neighbors_shaped by done. f_equal.
  unfold neighbor_sum. f_equal. apply list_fmap_ext.
  intros _ [a b] Hin%list_elem_of_lookup_2. simpl.
  pose proof (neighbor_cells_coord _ _ _ Hin) as [Ha Hb]. simpl in *.
  unfold cell. rewrite Hold; [done..|].
  intros Heq. injection Heq as -> ->. by apply (not_neighbor_of_itself x y).
Qed.

Lemma get_neighbors_ignores_centre_witness :
  shaped blinker ∧ coord 1 ∧ coord 1 ∧
  cell_set blinker 1 1 0 = Some (grid_of [(1, 0); (1, 2)]) ∧
  get_neighbors (grid_of [(1, 0); (1, 2)]) 1 1 = get_neighbors blinker 1 1.
Proof.
  assert (Hg : shaped blinker)
    by (refine (bool_decide_unpack _ _); vm_compute; exact I).
  assert (Hc : coord 1) by (unfold coord, SVG_SIZE; lia).
  assert (Hs : cell_set blinker 1 1 0 = Some (grid_of [(1, 0); (1, 2)]))
    by (vm_compute; reflexivity).
  split; [exact Hg|]. split; [exact Hc|]. split; [exact Hc|].
  split; [exact Hs|].
  exact (get_neighbors_ignores_centre blinker _ 1 1 0 Hg Hc Hc Hs).
Defined.

(** ** Grids that are not 32x32 *)

Lemma getitem_nonneg_is_Some {A} (l : list A) i :
  0 ≤ i → is_Some (Py.getitem l i) ↔ i < Z.of_nat (length l).
Proof.
  intros Hi. split.
  - intros [a Ha]. unfold Py.getitem, Py.norm_index in Ha.
    destruct (Z.leb_spec 0 i); [|lia].
    destruct (Z.ltb_spec i (Z.of_nat (length l))); [done|].
    destruct (Z.ltb_spec i 0); [lia|]. done.
  - intros Hlt. rewrite getitem_nonneg by lia.
    apply lookup_lt_is_Some_2. lia.
Qed.

Lemma crop_shaped g : has_block g → shaped (crop g).
Proof.
  intros [Hl Hr]. unfold crop. split.
  - rewrite length_fmap, length_take. lia.
  - apply Forall_fmap. eapply Forall_impl; [exact Hr|].
    intros row Hrow. simpl in *. rewrite length_take. lia.
Qed.

Lemma cell_get_crop g y x :
  has_block g → coord y → coord x → cell_get (crop g) y x = cell_get g y x.
Proof.
  intros Hb Hy Hx. pose proof (crop_shaped g Hb) as [Hcl _].
  destruct Hb as [Hl Hr]. unfold coord in *.
  destruct (lookup_lt_is_Some_2 g (Z.to_nat y)) as [row Hrow]; [lia|].
  assert (take (Z.to_nat SVG_SIZE) g !! Z.to_nat y = Some row) as Htake
    by (rewrite lookup_take_lt by lia; done).
  pose proof (Forall_lookup_1 _ _ _ _ Hr Htake) as Hlen. simpl in Hlen.
  unfold cell_get. rewrite !getitem_nonneg by lia.
  unfold crop. rewrite list_lookup_fmap, Htake, Hrow. simpl.
  rewrite !getitem_nonneg by (rewrite ?length_take; lia).
  by rewrite lookup_take_lt by lia.
Qed.

Lemma get_neighbors_ext (g1 g2 : Grid) x y :
  (∀ b a, coord b → coord a → cell_get g1 b a = cell_get g2 b a) →
  get_neighbors g1 x y = get_neighbors g2 x y.
Proof.
  intros Heq. unfold get_neighbors.
  change (Py.range (-1) 2 1) with [-1; 0; 1].
  cbn [Py.for_ Z.eqb andb]. rewrite !wrap_add.
  by rewrite !(Heq _ _ (wrap_coord _ _) (wrap_coord _ _)).
Qed.

(** X4. [evolve_grid] reads only the cells with both indices below 32:
    two grids, of any shapes, that agree there (a failing read counting as
    a value) evolve alike. *)
Theorem evolve_grid_ext (g1 g2 : Grid) :
  (∀ y x, coord y → coord x → cell_get g1 y x = cell_get g2 y x) →
  evolve_grid g1 = evolve_grid g2.
Proof.
  intros Heq. unfold evolve_grid. apply for_ext. intros y s0 Hy.
  apply for_ext. intros x s1 Hx.
  apply elem_of_range_up in Hy, Hx. unfold evolve_cell.
  rewrite (get_neighbors_ext g1 g2) by done. by rewrite Heq.
Qed.

Lemma evolve_grid_ext_witness :
  evolve_grid (replicate 40 (replicate 33 1))
  = evolve_grid (replicate 32 (replicate 32 1)).
Proof.
  apply evolve_grid_ext. intros y x Hy Hx.
  pose proof (forall_coords (λ y x, bool_decide
    (cell_get (replicate 40 (replicate 33 1)) y x
     = cell_get (replicate 32 (replicate 32 1)) y x))) as Hall.
  specialize (Hall ltac:(vm_compute; reflexivity) y x Hy Hx).
  exact (bool_decide_unpack _ (Is_true_true_2 _ Hall)).
Defined.

Lemma for_Some_body {A S} (it : list A) (body : A → S → option S) s s' :
  Py.for_ it body s = Some s' → ∀ a, a ∈ it → ∃ s0, is_Some (body a s0).
Proof.
  revert s. induction it as [|a0 it IH]; intros s Hfor a Ha.
  - by apply elem_of_nil in Ha.
  - simpl in Hfor. destruct (body a0 s) as [s1|] eqn:Hb; [|done].
    apply elem_of_cons in Ha as [->|Ha]; [by exists s; rewrite Hb|].
    by apply (IH s1).
Qed.

Lemma evolve_grid_reads g :
  is_Some (evolve_grid g) →
  ∀ y x, coord y → coord x → is_Some (cell_get g y x).
Proof.
  intros [g' He] y x Hy Hx. unfold evolve_grid in He.
  rewrite for_nested in He.
  destruct (for_Some_body _ _ _ _ He (y, x)) as (s0 & s1 & Hcell);
    [by apply elem_of_grid_indices|].
  simpl in Hcell. unfold evolve_cell in Hcell.
  destruct (get_neighbors g x y); [|done]. simpl in Hcell.
  destruct (cell_get g y x); [by eexists|done].
Qed.

Lemma has_block_reads g :
  (∀ y x, coord y → coord x → is_Some (cell_get g y x)) → has_block g.
Proof.
  intros Hread.
  assert (Hrows : ∀ y, coord y → ∃ row,
            g !! Z.to_nat y = Some row ∧ (Z.to_nat SVG_SIZE ≤ length row)%nat).
  { intros y Hy.
    assert (C31 : coord 31) by (unfold coord, SVG_SIZE; lia).
    destruct (Hread y 31 Hy C31) as [v Hv]. unfold cell_get in Hv.
    destruct (Py.getitem g y) as [row|] eqn:Hrow; [|done]. simpl in Hv.
    unfold coord in Hy.
    assert (y < Z.of_nat (length g))
      by (apply getitem_nonneg_is_Some; [lia|by rewrite Hrow]).
    rewrite getitem_nonneg in Hrow by lia. exists row. split; [done|].
    assert (31 < Z.of_nat (length row))
      by (apply getitem_nonneg_is_Some; [lia|by rewrite Hv]).
    unfold SVG_SIZE. lia. }
  split.
  - destruct (Hrows 31) as (row & Hrow & _); [unfold coord, SVG_SIZE; lia|].
    apply lookup_lt_Some in Hrow. unfold SVG_SIZE. lia.
  - apply Forall_lookup_2. intros i row Hi.
    pose proof (lookup_lt_Some _ _ _ Hi) as Hlt. rewrite length_take in Hlt.
    rewrite lookup_take_lt in Hi by lia.
    destruct (Hrows (Z.of_nat i)) as (row' & Hrow' & Hlen).
    { unfold coord. lia. }
    rewrite Nat2Z.id in Hrow'. congruence.
Qed.

(** X5. [evolve_grid] checks no dimensions: it succeeds exactly on the grids
    that have at least 32 rows whose first 32 have at least 32 cells each,
    and fails ([IndexError]) on all others; rows and cells beyond the 32nd
    are ignored, the result being that of the top-left 32x32 block, a 32x32
    grid of 0/1 cells. *)
Theorem evolve_grid_defined_iff (g : Grid) :
  (is_Some (evolve_grid g) ↔ has_block g) ∧
  (¬ has_block g → evolve_grid g = None) ∧
  (has_block g →
     evolve_grid g = evolve_grid (crop g) ∧
     ∃ g', evolve_grid g = Some g' ∧ bitgrid g').
Proof.
  assert (Hcrop : has_block g →
            evolve_grid g = evolve_grid (crop g) ∧
            ∃ g', evolve_grid g = Some g' ∧ bitgrid g').
  { intros Hb.
    assert (evolve_grid g = evolve_grid (crop g)) as Heq.
    { apply evolve_grid_ext. intros y x Hy Hx. symmetry.
      by apply cell_get_crop. }
    split; [done|]. rewrite Heq.
    apply evolve_grid_bitgrid, crop_shaped, Hb. }
  assert (Hiff : is_Some (evolve_grid g) ↔ has_block g).
  { split.
    - intros He. apply has_block_reads, evolve_grid_reads, He.
    - intros Hb. destruct (Hcrop Hb) as (_ & g' & -> & _). by eexists. }
  split; [done|]. split; [|done].
  intros Hnb. destruct (evolve_grid g) eqn:He; [|done].
  exfalso. apply Hnb, Hiff. by eexists.
Qed.

(** A grid of 31 rows is refused; one of 40 rows of 33 cells is accepted. *)
Lemma evolve_grid_defined_iff_witness :
  evolve_grid (replicate 31 (replicate 32 0)) = None ∧
  ∃ g', evolve_grid (replicate 40 (replicate 33 1)) = Some g' ∧ bitgrid g'.
Proof.
  split.
  - refine (proj1 (proj2 (evolve_grid_defined_iff _)) _).
    intros Hb. apply (bool_decide_pack _) in Hb. vm_compute in Hb. exact Hb.
  - refine (proj2 (proj2 (proj2 (evolve_grid_defined_iff _)) _)).
    refine (bool_decide_unpack _ _). vm_compute. exact I.
Defined.

(** ** Cell values other than 0 and 1 *)

(** X6. On a 32x32 grid of arbitrary integers [evolve_grid] returns a grid
    of 0/1 cells: a cell counts as live when it is not 0, while its
    neighbours contribute their values, not their truth values, to the
    count that is compared with 2 and 3. *)
Theorem evolve_grid_any_integers g x y :
  shaped g → coord x → coord y →
  ∃ g' c n,
    evolve_grid g = Some g' ∧ bitgrid g' ∧
    cell_get g y x = Some c ∧
    mapM (λ p, cell_get g p.2 p.1) (neighbor_cells x y)
      = Some ((λ p, cell g p.2 p.1) <$> neighbor_cells x y) ∧
    n = foldr Z.add 0 ((λ p, cell g p.2 p.1) <$> neighbor_cells x y) ∧
    (cell_get g' y x = Some 1 ↔
       (c ≠ 0 ∧ (n = 2 ∨ n = 3)) ∨ (c = 0 ∧ n = 3)) ∧
    (cell_get g' y x = Some 0 ↔
       ¬ ((c ≠ 0 ∧ (n = 2 ∨ n = 3)) ∨ (c = 0 ∧ n = 3))).
Proof.
  intros Hg Hx Hy.
  destruct (evolve_grid_shaped g Hg) as (g' & He & Hg' & Hc).
  exists g', (cell g y x), (neighbor_sum g x y).
  split; [done|]. split.
  { destruct (evolve_grid_bitgrid g Hg) as (g1 & He1 & Hb). congruence. }
  split; [by apply cell_get_cell|].
  split; [by apply neighbor_cells_read|]. split; [done|].
  rewrite Hc by done. unfold next_state, Py.truthy.
  destruct (Z.eqb_spec (cell g y x) 0) as [Hc0|Hc0]; simpl.
  - destruct (Z.eqb_spec (neighbor_sum g x y) 3) as [Hn|Hn]; split; split;
      try done; try (intros; right; done); try tauto.
  - case_bool_decide as Hn.
    + assert (neighbor_sum g x y = 2 ∨ neighbor_sum g x y = 3) as Hn'.
      { apply elem_of_cons in Hn as [->|Hn]; [by left|].
        apply elem_of_cons in Hn as [->|Hn]; [by right|].
        by apply elem_of_nil in Hn. }
      split; split; try done; try tauto.
    + assert (¬ (neighbor_sum g x y = 2 ∨ neighbor_sum g x y = 3)) as Hn'.
      { intros [Hn'|Hn']; apply Hn; rewrite Hn'; by repeat constructor. }
      split; split; try done; try tauto.
Qed.

(** The cell [(1, 1)] holds 5 and its only non-zero neighbour holds 2: the
    count is 2 and the cell survives. *)
Lemma evolve_grid_any_integers_witness :
  shaped weighted_grid ∧ coord 1 ∧ coord 1 ∧
  cell_get weighted_grid 1 1 = Some 5 ∧
  get_neighbors weighted_grid 1 1 = Some 2 ∧
  ∃ g', evolve_grid weighted_grid = Some g' ∧ bitgrid g' ∧
        cell_get g' 1 1 = Some 1.
Proof.
  assert (Hg : shaped weighted_grid)
    by (refine (bool_decide_unpack _ _); vm_compute; exact I).
  assert (Hc : coord 1) by (unfold coord, SVG_SIZE; lia).
  split; [exact Hg|]. split; [exact Hc|]. split; [exact Hc|].
  split; [reflexivity|]. split; [reflexivity|].
  destruct (evolve_grid_any_integers weighted_grid 1 1 Hg Hc Hc)
    as (g' & c & n & He & Hb & Hcell & _ & Hn & Hlive & _).
  exists g'. split; [exact He|]. split; [exact Hb|].
  apply Hlive. left. injection Hcell as <-. rewrite Hn.
  split; [discriminate|left; reflexivity].
Defined.

(** ** Composing runs *)

Lemma iter_evolve_None n : Nat.iter n (λ r, r ≫= evolve_grid) None = None.
Proof. induction n as [|n IH]; simpl; [done|]. by rewrite IH. Qed.

(** X7. Steps add up: for non-negative [a] and [b], running [a + b] steps
    is running [a] steps and then [b] steps on the result; a failure of the
    first run is the failure of the whole. *)
Theorem run_add g a b :
  0 ≤ a → 0 ≤ b → run g (a + b) = g' ← run g a; run g' b.
Proof.
  intros Ha Hb. rewrite (run_iter g (a + b)), (run_iter g a).
  replace (Z.to_nat (a + b)) with (Z.to_nat b + Z.to_nat a)%nat by lia.
  rewrite Nat.iter_add.
  destruct (Nat.iter (Z.to_nat a) _ (Some g)) as [g1|]; simpl.
  - by rewrite run_iter.
  - apply iter_evolve_None.
Qed.

Lemma run_add_witness :
  0 ≤ 2 ∧ 0 ≤ 3 ∧ run blinker (2 + 3) = g' ← run blinker 2; run g' 3.
Proof.
  assert (H2 : 0 ≤ 2) by lia. assert (H3 : 0 ≤ 3) by lia.
  split; [exact H2|]. split; [exact H3|]. exact (run_add blinker 2 3 H2 H3).
Defined.

Lemma run_one g : run g 1 = evolve_grid g.
Proof.
  unfold run. change (Py.range 0 1 1) with [0]. simpl.
  by destruct (evolve_grid g).
Qed.

(** X8. The grid for [steps + 1] is one generation after the grid for
    [steps]: with the step counts 1, 2, 3, ... the main loop passes day by
    day, each card shows the [evolve_grid] of the card of the day before.
    This needs [0 ≤ steps]: the grids for -1 and 0 steps are both the
    seed. *)
Theorem generate_png_art_next input_text steps :
  0 ≤ steps →
  generate_png_art input_text (steps + 1)
  = g ← generate_png_art input_text steps; evolve_grid g.
Proof.
  intros Hs. unfold generate_png_art.
  destruct (seed_grid input_text) as [g0|]; simpl; [|done].
  rewrite run_add by lia.
  destruct (run g0 steps) as [g1|]; simpl; [apply run_one|done].
Qed.

Lemma generate_png_art_next_witness :
  0 ≤ 4 ∧
  generate_png_art (Py.str "PF 2025") (4 + 1)
  = g ← generate_png_art (Py.str "PF 2025") 4; evolve_grid g.
Proof.
  assert (Hs : 0 ≤ 4) by lia.
  split; [exact Hs|]. exact (generate_png_art_next (Py.str "PF 2025") 4 Hs).
Defined.

Lemma evolve_create_grid : evolve_grid create_grid = Some create_grid.
Proof. by vm_compute. Qed.

(** The grid of dead cells is a fixed point: it stays as it is for
    every step count, negative ones included, and so does the grid of the
    empty text. *)
Theorem run_dead_grid steps :
  run create_grid steps = Some create_grid ∧
  generate_png_art (Py.str "") steps = Some create_grid.
Proof.
  assert (run create_grid steps = Some create_grid) as Hrun.
  { rewrite run_iter. induction (Z.to_nat steps) as [|n IH]; [done|].
    simpl. rewrite IH. simpl. apply evolve_create_grid. }
  split; [done|]. unfold generate_png_art.
  change (seed_grid (Py.str "")) with (seed_bytes []).
  assert (seed_bytes [] = Some create_grid) as -> by (by vm_compute).
  done.
Qed.

(** ** Reading the text back from its seed grid *)

Lemma lor_byte a b : is_byte a → is_byte b → is_byte (Z.lor a b).
Proof.
  unfold is_byte. intros Ha Hb.
  assert (0 ≤ Z.lor a b) as Hnn by (apply Z.lor_nonneg; lia).
  split; [done|].
  destruct (decide (Z.lor a b = 0)) as [->|Hne]; [lia|].
  change 256 with (2 ^ 8). apply Z.log2_lt_pow2; [lia|].
  rewrite Z.log2_lor by lia.
  assert (∀ z, 0 ≤ z < 256 → Z.log2 z < 8) as Hlog.
  { intros z Hz. destruct (decide (z = 0)) as [->|Hz0]; [done|].
    apply Z.log2_lt_pow2; [lia|]. change (2 ^ 8) with 256. lia. }
  pose proof (Hlog a Ha). pose proof (Hlog b Hb). lia.
Qed.

Lemma land_63_byte z : is_byte (Z.land z 0x3F).
Proof.
  change 0x3F with (Z.ones 6). rewrite Z.land_ones by lia.
  pose proof (Z.mod_pos_bound z (2 ^ 6)). unfold is_byte.
  change (2 ^ 6) with 64 in *. lia.
Qed.

Lemma shiftr_byte z k m :
  0 ≤ k → 0 ≤ z < m * 2 ^ k → m ≤ 256 → is_byte (Z.shiftr z k).
Proof.
  intros Hk Hz Hm. rewrite Z.shiftr_div_pow2 by done. unfold is_byte.
  assert (0 < 2 ^ k) by (apply Z.pow_pos_nonneg; lia). split.
  - apply Z.div_pos; lia.
  - apply Z.div_lt_upper_bound; nia.
Qed.

Lemma utf8_char_bytes c b : Py.utf8_char c = Some b → Forall is_byte b.
Proof.
  unfold Py.utf8_char. intros Hb.
  repeat match type of Hb with
         | context [?a <? ?b] => destruct (Z.ltb_spec a b)
         | context [?a <=? ?b] => destruct (Z.leb_spec a b)
         end; simpl in Hb; try done; injection Hb as <-;
    repeat apply Forall_cons_2; try apply Forall_nil_2;
    try (unfold is_byte; lia);
    apply lor_byte; try (unfold is_byte; lia); try apply land_63_byte.
  - apply (shiftr_byte c 6 32); lia.
  - apply (shiftr_byte c 12 16); lia.
  - apply (shiftr_byte c 12 16); lia.
  - apply (shiftr_byte c 18 5); lia.
Qed.

Lemma encode_utf8_bytes s bs : Py.encode_utf8 s = Some bs → Forall is_byte bs.
Proof.
  revert bs. induction s as [|c s IH]; intros bs Hbs; simpl in Hbs.
  - injection Hbs as <-. constructor.
  - destruct (Py.utf8_char c) as [b|] eqn:Hc; [|done]. simpl in Hbs.
    destruct (Py.encode_utf8 s) as [bs'|]; [|done]. simpl in Hbs.
    injection Hbs as <-. apply Forall_app. split; [|by apply IH].
    by apply (utf8_char_bytes c).
Qed.

Lemma padded_byte_is_byte bs i : Forall is_byte bs → is_byte (padded_byte bs i).
Proof.
  intros Hbs. unfold padded_byte.
  destruct (bs !! Z.to_nat i) as [b|] eqn:Hb; simpl.
  - by apply (Forall_lookup_1 _ _ _ _ Hbs Hb).
  - unfold is_byte. lia.
Qed.

(** A byte is the sum of its bits. *)
Lemma byte_of_bits b :
  is_byte b →
  foldl (λ acc j, 2 * acc + msb_bit b j) 0 (Py.range 0 8 1) = b.
Proof.
  intros Hb.
  assert (forallb (λ b, foldl (λ acc j, 2 * acc + msb_bit b j) 0
                          (Py.range 0 8 1) =? b) (Py.range 0 256 1) = true)
    as Hall by (by vm_compute).
  rewrite forallb_forall in Hall. apply Z.eqb_eq, Hall.
  apply list_elem_of_In, elem_of_range_up, Hb.
Qed.

Lemma take_zero_pad bs :
  take 128 (zero_pad bs) = padded_byte bs <$> Py.range 0 MAX_BYTES 1.
Proof.
  apply list_eq. intros k. rewrite range_up, <- list_fmap_compose.
  rewrite list_lookup_fmap. change (Z.to_nat MAX_BYTES) with 128%nat.
  destruct (decide (k < 128)%nat) as [Hk|Hk].
  - rewrite lookup_take_lt by done. rewrite lookup_seq_lt by done. simpl.
    rewrite <- (Nat2Z.id k) at 1. apply zero_pad_lookup.
    change MAX_BYTES with 128. lia.
  - rewrite lookup_take_ge by lia. by rewrite lookup_seq_ge by lia.
Qed.

(** X9. Seeding loses nothing of the first 128 bytes: reading the cells of
    the seed grid of a text eight by eight, most significant bit first,
    gives back the UTF-8 bytes of the text, padded with zeros or cut to 128
    bytes. *)
Theorem seed_grid_round_trip input_text bytes_data :
  Py.encode_utf8 input_text = Some bytes_data →
  ∃ g, seed_grid input_text = Some g ∧
       grid_bytes g = take 128 (zero_pad bytes_data).
Proof.
  intros Henc. pose proof (encode_utf8_bytes _ _ Henc) as Hbytes.
  destruct (seed_bytes_bits bytes_data) as (g & Hs & Hg & Hc).
  exists g. split; [unfold seed_grid; by rewrite Henc|].
  rewrite take_zero_pad. unfold grid_bytes.
  apply list_fmap_ext. intros _ i Hi%list_elem_of_lookup_2.
  apply elem_of_range_up in Hi.
  rewrite <- (byte_of_bits (padded_byte bytes_data i))
    by (by apply padded_byte_is_byte).
  unfold grid_byte. change (Py.range 0 8 1) with [0; 1; 2; 3; 4; 5; 6; 7].
  cbn [foldl]. unfold cell. rewrite !Hc by lia. done.
Qed.

Lemma seed_grid_round_trip_witness :
  Py.encode_utf8 (Py.str "PF 2025") = Some [80; 70; 32; 50; 48; 50; 53] ∧
  ∃ g, seed_grid (Py.str "PF 2025") = Some g ∧
       grid_bytes g = [80; 70; 32; 50; 48; 50; 53] ++ replicate 121 0.
Proof.
  split; [reflexivity|].
  exact (seed_grid_round_trip (Py.str "PF 2025")
           [80; 70; 32; 50; 48; 50; 53] eq_refl).
Defined.

(** X10. A text of [n] bytes lights cells among the first [8 * n] only,
    counted row by row: every later cell of its seed grid is dead. *)
Theorem seed_grid_tail_dead input_text bytes_data y x :
  Py.encode_utf8 input_text = Some bytes_data →
  coord y → coord x →
  8 * Z.of_nat (length bytes_data) ≤ y * SVG_SIZE + x →
  ∃ g, seed_grid input_text = Some g ∧ cell_get g y x = Some 0.
Proof.
  intros Henc Hy Hx Hlen.
  destruct (seed_bytes_shaped bytes_data) as (g & Hs & Hg & Hc).
  exists g. split; [unfold seed_grid; by rewrite Henc|].
  rewrite Hc by done. f_equal. unfold seed_state, padded_byte.
  unfold coord, SVG_SIZE in *.
  rewrite lookup_ge_None_2.
  - simpl. by rewrite Z.shiftr_0_l.
  - assert (Z.of_nat (length bytes_data) ≤ (y * 32 + x) `div` 8)
      by (apply Z.div_le_lower_bound; lia).
    lia.
Qed.

(** The seven bytes of the text fill 56 cells; cell [(24, 1)] is the 57th. *)
Lemma seed_grid_tail_dead_witness :
  Py.encode_utf8 (Py.str "PF 2025") = Some [80; 70; 32; 50; 48; 50; 53] ∧
  coord 1 ∧ coord 24 ∧
  ∃ g, seed_grid (Py.str "PF 2025") = Some g ∧ cell_get g 1 24 = Some 0.
Proof.
  assert (H1 : coord 1) by (unfold coord, SVG_SIZE; lia).
  assert (H24 : coord 24) by (unfold coord, SVG_SIZE; lia).
  split; [reflexivity|]. split; [exact H1|]. split; [exact H24|].
  refine (seed_grid_tail_dead (Py.str "PF 2025")
            [80; 70; 32; 50; 48; 50; 53] 1 24 eq_refl H1 H24 _).
  unfold SVG_SIZE. simpl. lia.
Defined.

Lemma encode_utf8_ascii s :
  Forall (λ c, 0 ≤ c < 128) s → Py.encode_utf8 s = Some s.
Proof.
  induction 1 as [|c s Hc _ IH]; simpl; [done|].
  unfold Py.utf8_char.
  destruct (Z.ltb_spec c 0); [lia|]. destruct (Z.ltb_spec c 128); [|lia].
  simpl. by rewrite IH.
Qed.

(** X11. An ASCII text never lights the columns 0, 8, 16 and 24: each of
    its characters is one byte below 128, whose most significant bit lands
    in a cell with [x] a multiple of 8. *)
Theorem seed_grid_ascii_columns input_text y x :
  Forall (λ c, 0 ≤ c < 128) input_text →
  coord y → coord x → x `mod` 8 = 0 →
  ∃ g, seed_grid input_text = Some g ∧ cell_get g y x = Some 0.
Proof.
  intros Hascii Hy Hx Hcol.
  pose proof (encode_utf8_ascii _ Hascii) as Henc.
  destruct (seed_bytes_shaped input_text) as (g & Hs & Hg & Hc).
  exists g. split; [unfold seed_grid; by rewrite Henc|].
  rewrite Hc by done. f_equal. unfold seed_state.
  unfold coord, SVG_SIZE in *.
  replace ((y * 32 + x) `mod` 8) with 0
    by (rewrite Z.add_mod, Hcol by lia;
        replace (y * 32) with (y * 4 * 8) by lia;
        by rewrite Z.mod_mul by lia).
  assert (0 ≤ padded_byte input_text ((y * 32 + x) `div` 8) < 128) as Hb.
  { unfold padded_byte.
    destruct (input_text !! _) as [b|] eqn:Hb; simpl; [|lia].
    by apply (Forall_lookup_1 _ _ _ _ Hascii Hb). }
  rewrite Z.shiftr_div_pow2 by lia. change (2 ^ (7 - 0)) with 128.
  by rewrite Z.div_small by lia.
Qed.

Lemma seed_grid_ascii_columns_witness :
  Forall (λ c, 0 ≤ c < 128) (Py.str "PF 2025") ∧
  coord 0 ∧ coord 8 ∧ 8 `mod` 8 = 0 ∧
  ∃ g, seed_grid (Py.str "PF 2025") = Some g ∧ cell_get g 0 8 = Some 0.
Proof.
  assert (Ha : Forall (λ c, 0 ≤ c < 128) (Py.str "PF 2025"))
    by (refine (bool_decide_unpack _ _); vm_compute; exact I).
  assert (H0 : coord 0) by (unfold coord, SVG_SIZE; lia).
  assert (H8 : coord 8) by (unfold coord, SVG_SIZE; lia).
  split; [exact Ha|]. split; [exact H0|]. split; [exact H8|].
  split; [reflexivity|].
  exact (seed_grid_ascii_columns (Py.str "PF 2025") 0 8 Ha H0 H8 eq_refl).
Defined.

(** ** Rendering *)

Lemma for_paint {K} (it : list K) (P : K → Z → Z → bool) c
    (body : K → PIL.image → option PIL.image) im :
  (∀ k im0, k ∈ it →
     PIL.width im0 = PIL.width im → PIL.height im0 = PIL.height im →
     ∃ im1, body k im0 = Some im1 ∧ painted im0 im1 (P k) c) →
  ∃ im', Py.for_ it body im = Some im' ∧
         painted im im' (λ X Y, existsb (λ k, P k X Y) it) c.
Proof.
  revert im. induction it as [|k it IH]; intros im Hbody.
  - exists im. by repeat split.
  - destruct (Hbody k im) as (im1 & Hk & Hw & Hh & Hp); [by left|done..|].
    destruct (IH im1) as (im' & Hfor & Hw' & Hh' & Hp').
    { intros k' im0 Hk' Hw0 Hh0.
      apply Hbody; [by right|by rewrite Hw0|by rewrite Hh0]. }
    exists im'. split; [simpl; by rewrite Hk|]. unfold painted.
    split; [by rewrite Hw'|]. split; [by rewrite Hh'|].
    intros X Y. rewrite Hp', Hp. simpl.
    by destruct (P k X Y), (existsb _ it).
Qed.

Lemma putpixel_painted im X Y c :
  0 ≤ X < PIL.width im → 0 ≤ Y < PIL.height im →
  ∃ im1, PIL.putpixel im X Y c = Some im1 ∧
         painted im im1 (λ X' Y', (X' =? X) && (Y' =? Y)) c.
Proof.
  intros HX HY. unfold PIL.putpixel. rewrite !norm_index_nonneg by done.
  simpl. rewrite !Z2Nat.id by lia. eexists. split; [done|]. by repeat split.
Qed.

Lemma existsb_range_up (f : Z → bool) n :
  existsb f (Py.range 0 n 1) = true ↔ ∃ k, 0 ≤ k < n ∧ f k = true.
Proof.
  rewrite existsb_exists. split; intros (k & Hk & Hf); exists k.
  - by apply list_elem_of_In, elem_of_range_up in Hk.
  - split; [|done]. by apply list_elem_of_In, elem_of_range_up.
Qed.

Lemma in_block_true scale x y X Y :
  in_block scale x y X Y = true ↔
  x * scale ≤ X < x * scale + scale ∧ y * scale ≤ Y < y * scale + scale.
Proof.
  unfold in_block. rewrite existsb_range_up. split.
  - intros (px & Hpx & Hin). apply existsb_range_up in Hin as (py & Hpy & Heq).
    apply andb_true_iff in Heq as [HX%Z.eqb_eq HY%Z.eqb_eq]. lia.
  - intros [HX HY]. exists (X - x * scale). split; [lia|].
    apply existsb_range_up. exists (Y - y * scale). split; [lia|].
    apply andb_true_iff. split; apply Z.eqb_eq; lia.
Qed.

Lemma paint_block im scale x y c :
  0 ≤ scale → coord x → coord y →
  PIL.width im = SVG_SIZE * scale → PIL.height im = SVG_SIZE * scale →
  ∃ im1,
    Py.for_ (Py.range 0 scale 1) (λ px image,
      Py.for_ (Py.range 0 scale 1) (λ py image,
        PIL.putpixel image (x * scale + px) (y * scale + py) c) image) im
    = Some im1 ∧
    painted im im1 (in_block scale x y) c.
Proof.
  intros Hs Hx Hy Hw Hh. unfold coord, SVG_SIZE in *.
  apply (for_paint _ (λ px X Y, existsb (λ py,
           (X =? x * scale + px) && (Y =? y * scale + py))
           (Py.range 0 scale 1))).
  intros px im0 Hpx%elem_of_range_up Hw0 Hh0.
  apply (for_paint _ (λ py X Y,
           (X =? x * scale + px) && (Y =? y * scale + py))).
  intros py im1 Hpy%elem_of_range_up Hw1 Hh1.
  apply putpixel_painted; nia.
Qed.

Lemma new_allocatable fits size c :
  0 ≤ size → allocatable fits size →
  PIL.new fits size size c
  = Some {| PIL.width := size; PIL.height := size; PIL.pixel := λ _ _, c |}.
Proof.
  intros Hs [Hmax Hfits]. unfold PIL.new.
  destruct (Z.ltb_spec size 0); [lia|].
  destruct (Z.ltb_spec PIL.INT_MAX size); [lia|]. simpl.
  by rewrite Hfits.
Qed.


Lemma grid_to_png_shaped fits g active_colour inactive_colour scale :
  shaped g → 0 ≤ scale → allocatable fits (32 * scale) →
  ∃ im, grid_to_png fits g active_colour inactive_colour scale = Some im ∧
        PIL.width im = 32 * scale ∧ PIL.height im = 32 * scale ∧
        ∀ X Y, 0 ≤ X < 32 * scale → 0 ≤ Y < 32 * scale →
          ∃ c, cell_get g (Y `div` scale) (X `div` scale) = Some c ∧
               PIL.getpixel im X Y
               = Some (if Py.truthy c then active_colour
                       else inactive_colour).
Proof.
  intros Hg Hs Hfits. unfold grid_to_png.
  rewrite (new_allocatable fits (SVG_SIZE * scale))
    by first [exact Hfits | unfold SVG_SIZE; lia].
  cbn [mbind option_bind].
  set (im0 := {| PIL.width := SVG_SIZE * scale;
                 PIL.height := SVG_SIZE * scale;
                 PIL.pixel := λ _ _, inactive_colour |}).
  destruct (for_paint (Py.range 0 SVG_SIZE 1)
    (λ y X Y, existsb (λ x,
       Py.truthy (cell g y x) && in_block scale x y X Y)
       (Py.range 0 SVG_SIZE 1))
    active_colour
    (λ y image, Py.for_ (Py.range 0 SVG_SIZE 1) (λ x image,
       c ← cell_get g y x;
       if Py.truthy c then
         Py.for_ (Py.range 0 scale 1) (λ px image,
           Py.for_ (Py.range 0 scale 1) (λ py image,
             PIL.putpixel image (x * scale + px) (y * scale + py)
               active_colour) image) image
       else Some image) image) im0) as (im & Hfor & Hw & Hh & Hp).
  { intros y im1 Hy%elem_of_range_up Hw1 Hh1.
    apply (for_paint _ (λ x X Y,
             Py.truthy (cell g y x) && in_block scale x y X Y)).
    intros x im2 Hx%elem_of_range_up Hw2 Hh2.
    rewrite cell_get_cell by done. simpl.
    destruct (Py.truthy (cell g y x)); simpl.
    - apply paint_block; [done..|by rewrite Hw2, Hw1|by rewrite Hh2, Hh1].
    - exists im2. by repeat split. }
  exists im. split; [done|]. split; [done|]. split; [done|].
  intros X Y HX HY.
  assert (0 < scale) as Hpos by lia.
  assert (coord (X `div` scale) ∧ coord (Y `div` scale)) as [CX CY].
  { unfold coord, SVG_SIZE. split; (split;
      [apply Z.div_pos; lia|apply Z.div_lt_upper_bound; lia]). }
  exists (cell g (Y `div` scale) (X `div` scale)).
  split; [by apply cell_get_cell|].
  unfold PIL.getpixel. rewrite Hw, Hh. simpl.
  rewrite !norm_index_nonneg by (unfold SVG_SIZE; lia). simpl.
  rewrite !Z2Nat.id by lia. f_equal. rewrite Hp.
  unfold im0. cbn [PIL.pixel].
  assert (∀ x y, coord x → coord y → in_block scale x y X Y = true →
            x = X `div` scale ∧ y = Y `div` scale) as Hblock.
  { intros x y _ _ [HbX HbY]%in_block_true. split.
    - apply Z.div_unique with (X - x * scale); lia.
    - apply Z.div_unique with (Y - y * scale); lia. }
  match goal with
  | |- (if ?b then _ else _) = _ =>
      assert (b = Py.truthy (cell g (Y `div` scale) (X `div` scale))) as ->;
        [|done]
  end.
  apply Bool.eq_iff_eq_true. split.
  - intros (y & Hy & (x & Hx & Hin)%existsb_range_up)%existsb_range_up.
    apply andb_true_iff in Hin as [Hlive Hin].
    by destruct (Hblock x y Hx Hy Hin) as [-> ->].
  - intros Hlive. apply existsb_range_up. exists (Y `div` scale).
    split; [done|]. apply existsb_range_up. exists (X `div` scale).
    split; [done|]. rewrite Hlive. simpl. apply in_block_true.
    pose proof (Z.div_mod X scale). pose proof (Z.mod_pos_bound X scale).
    pose proof (Z.div_mod Y scale). pose proof (Z.mod_pos_bound Y scale).
    lia.
Qed.

(** X12. [grid_to_png] draws each cell as a square of [scale] by [scale]
    pixels: for a 32x32 grid, colours of byte components, [0 ≤ scale] and
    a size [32 * scale] that [Image.new] can allocate, the image is
    [32 * scale] pixels wide and high and its pixel [(X, Y)] has the active
    colour when the cell [(X // scale, Y // scale)] is not 0, the inactive
    colour when it is 0. *)
Theorem grid_to_png_pixels fits g active_colour inactive_colour scale :
  shaped g → is_colour active_colour → is_colour inactive_colour →
  0 ≤ scale → allocatable fits (32 * scale) →
  ∃ im, grid_to_png fits g active_colour inactive_colour scale = Some im ∧
        PIL.width im = 32 * scale ∧ PIL.height im = 32 * scale ∧
        ∀ X Y, 0 ≤ X < 32 * scale → 0 ≤ Y < 32 * scale →
          ∃ c, cell_get g (Y `div` scale) (X `div` scale) = Some c ∧
               PIL.getpixel im X Y
               = Some (if Py.truthy c then active_colour
                       else inactive_colour).
Proof.
  intros Hg _ _ Hs Hfits. by apply grid_to_png_shaped.
Qed.

(** The blinker at two pixels per cell: the pixel [(3, 2)] lies in the cell
    [(1, 1)], which is live. *)
Lemma grid_to_png_pixels_witness :
  shaped blinker ∧ is_colour DEFAULT_COLOUR ∧ is_colour BG_COLOUR ∧ 0 ≤ 2 ∧
  allocatable roomy (32 * 2) ∧
  ∃ im, grid_to_png roomy blinker DEFAULT_COLOUR BG_COLOUR 2 = Some im ∧
        PIL.width im = 64 ∧ PIL.height im = 64 ∧
        PIL.getpixel im 3 2 = Some DEFAULT_COLOUR.
Proof.
  assert (Hg : shaped blinker)
    by (refine (bool_decide_unpack _ _); vm_compute; exact I).
  assert (Ha : is_colour DEFAULT_COLOUR)
    by (unfold is_colour, is_byte; simpl; lia).
  assert (Hi : is_colour BG_COLOUR)
    by (unfold is_colour, is_byte; simpl; lia).
  assert (Hs : 0 ≤ 2) by lia.
  assert (Hf : allocatable roomy (32 * 2))
    by (split; [unfold PIL.INT_MAX; lia|reflexivity]).
  split; [exact Hg|]. split; [exact Ha|]. split; [exact Hi|].
  split; [exact Hs|]. split; [exact Hf|].
  destruct (grid_to_png_pixels roomy blinker DEFAULT_COLOUR BG_COLOUR 2
              Hg Ha Hi Hs Hf) as (im & Him & Hw & Hh & Hpx).
  exists im. split; [exact Him|]. split; [exact Hw|]. split; [exact Hh|].
  destruct (Hpx 3 2 ltac:(lia) ltac:(lia)) as (c & Hc & Hget).
  injection Hc as <-. exact Hget.
Defined.






(** X14. The whole of [generate_png_art]: for a text of Unicode scalar
    values, any step count, colours of byte components, [0 ≤ scale] and a
    size [32 * scale] that [Image.new] can allocate, it returns an image of
    [32 * scale] by [32 * scale] pixels in which the pixel [(X, Y)] has the
    active colour when the cell [(X // scale, Y // scale)] of the evolved
    grid is 1 and the inactive colour when it is 0. *)
Theorem generate_png_art_image_pixels fits input_text steps
    active_colour inactive_colour scale :
  Forall Py.scalar input_text →
  is_colour active_colour → is_colour inactive_colour →
  0 ≤ scale → allocatable fits (32 * scale) →
  ∃ g im,
    generate_png_art input_text steps = Some g ∧ bitgrid g ∧
    generate_png_art_image fits input_text steps active_colour
      inactive_colour scale = Some im ∧
    PIL.width im = 32 * scale ∧ PIL.height im = 32 * scale ∧
    ∀ X Y, 0 ≤ X < 32 * scale → 0 ≤ Y < 32 * scale →
      (cell_get g (Y `div` scale) (X `div` scale) = Some 1 ∧
       PIL.getpixel im X Y = Some active_colour) ∨
      (cell_get g (Y `div` scale) (X `div` scale) = Some 0 ∧
       PIL.getpixel im X Y = Some inactive_colour).
Proof.
  intros Htext _ _ Hs Hfits.
  destruct (encode_utf8_scalar input_text Htext) as [bytes_data Henc].
  destruct (seed_bytes_bitgrid bytes_data) as (g0 & Hseed & Hg0).
  destruct (run_bitgrid g0 steps Hg0) as (g & Hrun & Hg).
  assert (generate_png_art input_text steps = Some g) as Hgen.
  { unfold generate_png_art, seed_grid. rewrite Henc. simpl.
    by rewrite Hseed. }
  destruct (grid_to_png_shaped fits g active_colour inactive_colour scale
              (proj1 Hg) Hs Hfits) as (im & Him & Hw & Hh & Hpx).
  exists g, im. split; [done|]. split; [done|].
  split; [unfold generate_png_art_image; by rewrite Hgen|].
  split; [done|]. split; [done|].
  intros X Y HX HY. destruct (Hpx X Y HX HY) as (c & Hc & Hget).
  assert (coord (X `div` scale) ∧ coord (Y `div` scale)) as [CX CY].
  { unfold coord, SVG_SIZE. split; (split;
      [apply Z.div_pos; lia|apply Z.div_lt_upper_bound; lia]). }
  destruct (cells_of_bits g _ _ c (proj2 Hg) (proj1 Hg) CY CX Hc) as [->| ->].
  - right. by split.
  - left. by split.
Qed.

Lemma generate_png_art_image_pixels_witness :
  Forall Py.scalar (Py.str "PF 2025") ∧
  is_colour DEFAULT_COLOUR ∧ is_colour BG_COLOUR ∧ 0 ≤ 40 ∧
  allocatable roomy (32 * 40) ∧
  ∃ im, generate_png_art_image roomy (Py.str "PF 2025") 5
          DEFAULT_COLOUR BG_COLOUR 40 = Some im ∧
        PIL.width im = 1280 ∧ PIL.height im = 1280.
Proof.
  assert (Ht : Forall Py.scalar (Py.str "PF 2025"))
    by (refine (bool_decide_unpack _ _); vm_compute; exact I).
  assert (Ha : is_colour DEFAULT_COLOUR)
    by (unfold is_colour, is_byte; simpl; lia).
  assert (Hi : is_colour BG_COLOUR)
    by (unfold is_colour, is_byte; simpl; lia).
  assert (Hs : 0 ≤ 40) by lia.
  assert (Hf : allocatable roomy (32 * 40))
    by (split; [unfold PIL.INT_MAX; lia|reflexivity]).
  split; [exact Ht|]. split; [exact Ha|]. split; [exact Hi|].
  split; [exact Hs|]. split; [exact Hf|].
  destruct (generate_png_art_image_pixels roomy (Py.str "PF 2025") 5
              DEFAULT_COLOUR BG_COLOUR 40 Ht Ha Hi Hs Hf)
    as (g & im & _ & _ & Him & Hw & Hh & _).
  exists im. split; [exact Him|]. split; [exact Hw|exact Hh].
Defined.

(** ** Symmetry *)

Lemma wrap_swap a d e :
  ((a + d) `mod` SVG_SIZE + e) `mod` SVG_SIZE
  = ((a + e) `mod` SVG_SIZE + d) `mod` SVG_SIZE.
Proof.
  unfold SVG_SIZE. rewrite !Zplus_mod_idemp_l. f_equal. lia.
Qed.

Lemma shifted_cell dx dy g g2 y x :
  shifted dx dy g g2 → coord y → coord x →
  cell g2 y x = cell g ((y + dy) `mod` SVG_SIZE) ((x + dx) `mod` SVG_SIZE).
Proof. intros Hsh Hy Hx. unfold cell. by rewrite Hsh. Qed.

Lemma shifted_next_state dx dy g g2 y x :
  shifted dx dy g g2 → coord y → coord x →
  next_state g2 y x
  = next_state g ((y + dy) `mod` SVG_SIZE) ((x + dx) `mod` SVG_SIZE).
Proof.
  intros Hsh Hy Hx.
  assert (neighbor_sum g2 x y
          = neighbor_sum g ((x + dx) `mod` SVG_SIZE)
                           ((y + dy) `mod` SVG_SIZE)) as Hsum.
  { unfold neighbor_sum, neighbor_cells. rewrite offsets_eq.
    cbn [fmap list_fmap foldr fst snd].
    rewrite !(shifted_cell dx dy g g2) by (done || apply wrap_coord).
    by rewrite !(wrap_swap _ _ dx), !(wrap_swap _ _ dy). }
  unfold next_state. by rewrite Hsum, (shifted_cell dx dy g g2).
Qed.

(** X15. Evolution commutes with the translations of the torus: if [g2] is
    [g] moved by [dx] columns and [dy] rows, wrapping around the edges,
    then the next generation of [g2] is the next generation of [g] moved
    the same way. *)
Theorem evolve_grid_shifted dx dy g g2 :
  shaped g → shaped g2 → shifted dx dy g g2 →
  ∃ g' g2', evolve_grid g = Some g' ∧ evolve_grid g2 = Some g2' ∧
            shifted dx dy g' g2'.
Proof.
  intros Hg Hg2 Hsh.
  destruct (evolve_grid_shaped g Hg) as (g' & He & _ & Hc).
  destruct (evolve_grid_shaped g2 Hg2) as (g2' & He2 & _ & Hc2).
  exists g', g2'. split; [done|]. split; [done|].
  intros y x Hy Hx. rewrite Hc2 by done.
  rewrite Hc by apply wrap_coord. f_equal.
  by apply shifted_next_state.
Qed.

(** The blinker of column 1 and the blinker of column 0. *)
Lemma evolve_grid_shifted_witness :
  shaped blinker ∧ shaped (grid_of [(0, 0); (0, 1); (0, 2)]) ∧
  shifted 1 0 blinker (grid_of [(0, 0); (0, 1); (0, 2)]) ∧
  ∃ g' g2', evolve_grid blinker = Some g' ∧
            evolve_grid (grid_of [(0, 0); (0, 1); (0, 2)]) = Some g2' ∧
            shifted 1 0 g' g2'.
Proof.
  assert (Hg : shaped blinker)
    by (refine (bool_decide_unpack _ _); vm_compute; exact I).
  assert (Hg2 : shaped (grid_of [(0, 0); (0, 1); (0, 2)]))
    by (refine (bool_decide_unpack _ _); vm_compute; exact I).
  assert (Hsh : shifted 1 0 blinker (grid_of [(0, 0); (0, 1); (0, 2)])).
  { intros y x Hy Hx.
    pose proof (forall_coords (λ y x, bool_decide
      (cell_get (grid_of [(0, 0); (0, 1); (0, 2)]) y x
       = cell_get blinker ((y + 0) `mod` SVG_SIZE) ((x + 1) `mod` SVG_SIZE))))
      as Hall.
    specialize (Hall ltac:(vm_compute; reflexivity) y x Hy Hx).
    exact (bool_decide_unpack _ (Is_true_true_2 _ Hall)). }
  split; [exact Hg|]. split; [exact Hg2|]. split; [exact Hsh|].
  exact (evolve_grid_shifted 1 0 blinker _ Hg Hg2 Hsh).
Defined.

(** ** Extinction *)

Lemma grid_ext (g1 g2 : Grid) :
  shaped g1 → shaped g2 →
  (∀ y x, coord y → coord x → cell_get g1 y x = cell_get g2 y x) →
  g1 = g2.
Proof.
  intros [Hl1 Hr1] [Hl2 Hr2] Heq.
  apply (list_eq_same_length _ _ (Z.to_nat SVG_SIZE)); [done..|].
  intros i r1 r2 Hi Hi1 Hi2.
  pose proof (Forall_lookup_1 _ _ _ _ Hr1 Hi1) as Hlen1.
  pose proof (Forall_lookup_1 _ _ _ _ Hr2 Hi2) as Hlen2. simpl in *.
  apply (list_eq_same_length _ _ (Z.to_nat SVG_SIZE)); [done..|].
  intros j c1 c2 Hj Hj1 Hj2.
  assert (coord (Z.of_nat i)) as Ci by (unfold coord; lia).
  assert (coord (Z.of_nat j)) as Cj by (unfold coord; lia).
  specialize (Heq _ _ Ci Cj). unfold cell_get in Heq.
  rewrite !getitem_nonneg in Heq by lia.
  rewrite !Nat2Z.id, Hi1, Hi2 in Heq. simpl in Heq.
  rewrite !getitem_nonneg in Heq by lia.
  rewrite !Nat2Z.id in Heq. congruence.
Qed.

Lemma sum_bits_filter g (l : list (Z * Z)) :
  bitgrid g → (∀ p, p ∈ l → coord p.1 ∧ coord p.2) →
  foldr Z.add 0 ((λ p, cell g p.2 p.1) <$> l)
  = Z.of_nat (length (filter (λ p, cell g p.2 p.1 ≠ 0) l)).
Proof.
  intros Hg. induction l as [|p l IH]; intros Hc; [done|].
  rewrite fmap_cons, filter_cons. cbn [foldr].
  rewrite IH by (intros q Hq; apply Hc; by right).
  destruct (Hc p) as [Hx Hy]; [by left|].
  destruct (cell_bit g p.2 p.1 Hg Hy Hx) as [H0|H1].
  - rewrite decide_False by lia. lia.
  - rewrite decide_True by lia. simpl. lia.
Qed.

Lemma live_neighbors_bound g x y :
  bitgrid g → coord x → coord y →
  (Z.to_nat (neighbor_sum g x y)
   + (if decide (cell g y x ≠ 0)%Z then 1 else 0)
   ≤ length (live_cells g))%nat.
Proof.
  intros Hg Hx Hy. unfold neighbor_sum.
  rewrite (sum_bits_filter g) by (done || apply neighbor_cells_coord).
  rewrite Nat2Z.id.
  set (live := filter (λ p : Z * Z, cell g p.2 p.1 ≠ 0) (neighbor_cells x y)).
  assert (NoDup live) as Hnd by apply NoDup_filter, neighbor_cells_NoDup.
  assert (∀ p, p ∈ live → p ∈ live_cells g) as Hsub.
  { intros p [Hlive Hin]%list_elem_of_filter.
    apply list_elem_of_filter. split; [done|].
    apply elem_of_grid_indices. by apply (neighbor_cells_coord x y). }
  assert ((x, y) ∉ live) as Hself.
  { intros [_ Hin]%list_elem_of_filter.
    by apply (not_neighbor_of_itself x y). }
  case_decide as Hc.
  - replace (length live + 1)%nat with (length ((x, y) :: live))
      by (simpl; lia).
    apply submseteq_length, NoDup_submseteq; [by constructor|].
    intros p [->|Hp]%elem_of_cons; [|by apply Hsub].
    apply list_elem_of_filter. split; [done|].
    by apply elem_of_grid_indices.
  - rewrite Nat.add_0_r. by apply submseteq_length, NoDup_submseteq.
Qed.

Lemma run_create_grid steps : run create_grid steps = Some create_grid.
Proof.
  rewrite run_iter. induction (Z.to_nat steps) as [|n IH]; [done|].
  simpl. rewrite IH. simpl. apply evolve_create_grid.
Qed.

(** X16. Fewer than three live cells die out: on a 32x32 grid of 0/1
    cells with at most two live cells the next generation is the grid of
    dead cells, and so is the result of any run of one step or more. *)
Theorem sparse_grid_dies g :
  bitgrid g → (length (live_cells g) ≤ 2)%nat →
  evolve_grid g = Some create_grid ∧
  ∀ steps, 1 ≤ steps → run g steps = Some create_grid.
Proof.
  intros Hg Hlive.
  assert (evolve_grid g = Some create_grid) as He.
  { destruct (evolve_grid_shaped g (proj1 Hg)) as (g' & He & Hg' & Hc).
    rewrite He. f_equal. apply grid_ext; [done|apply create_grid_shaped|].
    intros y x Hy Hx. rewrite Hc by done.
    rewrite (cell_get_cell create_grid) by (done || apply create_grid_shaped).
    f_equal.
    assert (cell create_grid y x = 0) as ->.
    { pose proof (forall_coords (λ y x, cell create_grid y x =? 0)) as Hall.
      specialize (Hall ltac:(vm_compute; reflexivity) y x Hy Hx).
      by apply Z.eqb_eq. }
    pose proof (live_neighbors_bound g x y Hg Hx Hy) as Hn.
    pose proof (get_neighbors_bounds_aux g x y Hg) as Hrange.
    unfold next_state, Py.truthy.
    destruct (Z.eqb_spec (cell g y x) 0) as [Hc0|Hc0]; simpl.
    - rewrite decide_False in Hn by lia.
      destruct (Z.eqb_spec (neighbor_sum g x y) 3); [lia|done].
    - rewrite decide_True in Hn by done.
      case_bool_decide as Hin; [|done].
      apply elem_of_cons in Hin as [Hin|Hin]; [lia|].
      apply elem_of_cons in Hin as [Hin|Hin]; [lia|].
      by apply elem_of_nil in Hin. }
  split; [done|]. intros steps Hs.
  replace steps with (1 + (steps - 1)) by lia.
  rewrite run_add by lia. rewrite run_one, He. simpl.
  apply run_create_grid.
Qed.

(** The seed grid of ["A"] has two live cells: the card is blank from the
    first day on. *)
Lemma sparse_grid_dies_witness :
  seed_grid (Py.str "A") = Some (grid_of [(1, 0); (7, 0)]) ∧
  bitgrid (grid_of [(1, 0); (7, 0)]) ∧
  (length (live_cells (grid_of [(1, 0); (7, 0)]%Z)) ≤ 2)%nat ∧
  evolve_grid (grid_of [(1, 0); (7, 0)]) = Some create_grid ∧
  run (grid_of [(1, 0); (7, 0)]) 365 = Some create_grid.
Proof.
  assert (Hg : bitgrid (grid_of [(1, 0); (7, 0)]))
    by (refine (bool_decide_unpack _ _); vm_compute; exact I).
  assert (Hl : (length (live_cells (grid_of [(1, 0); (7, 0)]%Z)) ≤ 2)%nat)
    by (vm_compute; repeat constructor).
  split; [vm_compute; reflexivity|]. split; [exact Hg|]. split; [exact Hl|].
  destruct (sparse_grid_dies _ Hg Hl) as [He Hrun].
  split; [exact He|]. apply Hrun. lia.
Defined.

(** * The program on the store *)

(** ** Subscripts *)

Lemma getitem_Some {A} (l : list A) i a :
  Py.getitem l i = Some a ↔
  ∃ k, Py.norm_index (Z.of_nat (length l)) i = Some k ∧ l !! k = Some a.
Proof.
  unfold Py.getitem. destruct (Py.norm_index _ i) as [k|]; simpl.
  - split; [by exists k|]. by intros (k' & [= <-] & Hk).
  - split; [done|]. by intros (k' & ? & _).
Qed.

Lemma setitem_Some {A} (l l' : list A) i v :
  Py.setitem l i v = Some l' ↔
  ∃ k, Py.norm_index (Z.of_nat (length l)) i = Some k ∧ l' = <[k:=v]> l.
Proof.
  unfold Py.setitem. destruct (Py.norm_index _ i) as [k|]; simpl.
  - split; [intros [= <-]; by exists k|]. by intros (k' & [= <-] & ->).
  - split; [done|]. by intros (k' & ? & _).
Qed.

Lemma norm_index_lt len i k :
  Py.norm_index len i = Some k → (Z.of_nat k < len).
Proof.
  unfold Py.norm_index. intros Hk.
  destruct (Z.leb_spec 0 i), (Z.ltb_spec i len); simpl in Hk;
    try (injection Hk as <-; lia);
    destruct (Z.ltb_spec i 0), (Z.leb_spec (- len) i); simpl in Hk;
    try done; injection Hk as <-; lia.
Qed.

Lemma getitem_fmap {A B} (f : A → B) (l : list A) i :
  Py.getitem (f <$> l) i = f <$> Py.getitem l i.
Proof.
  unfold Py.getitem. rewrite length_fmap.
  destruct (Py.norm_index _ i) as [k|]; simpl; [|done].
  apply list_lookup_fmap.
Qed.

Lemma setitem_fmap {A B} (f : A → B) (l : list A) i v :
  Py.setitem (f <$> l) i (f v) = (fmap f : list A → list B) <$> Py.setitem l i v.
Proof.
  unfold Py.setitem. rewrite length_fmap.
  destruct (Py.norm_index _ i) as [k|]; simpl; [|done].
  by rewrite list_fmap_insert.
Qed.

(** ** Grids in the store *)

Lemma holds_preserved h h' l rs g :
  Mem.holds h l rs g → Mem.preserved h h' → Mem.holds h' l rs g.
Proof.
  intros (Hl & Hnd & Hrows) Hpres. split; [|split; [done|]].
  - rewrite Hpres; [done|by rewrite Hl].
  - eapply Forall2_impl; [exact Hrows|]. intros r row Hr. simpl in *.
    rewrite Hpres; [done|by rewrite Hr].
Qed.

Lemma preserved_refl h : Mem.preserved h h.
Proof. by intros l _. Qed.

Lemma preserved_trans h1 h2 h3 :
  Mem.preserved h1 h2 → Mem.preserved h2 h3 → Mem.preserved h1 h3.
Proof.
  intros H12 H23 l Hl. rewrite H23, H12; [done..|]. by rewrite H12.
Qed.

Lemma holds_length h l rs g : Mem.holds h l rs g → length rs = length g.
Proof. intros (_ & _ & Hrows). by eapply Forall2_length. Qed.

Lemma holds_in_store h l rs g l0 :
  Mem.holds h l rs g → l0 ∈ l :: rs → is_Some (h !! l0).
Proof.
  intros (Hl & _ & Hrows) [->|Hin]%elem_of_cons; [by rewrite Hl|].
  apply list_elem_of_lookup in Hin as [k Hk].
  destruct (Forall2_lookup_l _ _ _ _ _ Hrows Hk) as (row & _ & Hrow).
  by rewrite Hrow.
Qed.

Lemma read_grid_holds h l rs g : Mem.holds h l rs g → Mem.read_grid h l = Some g.
Proof.
  intros (Hl & _ & Hrows). unfold Mem.read_grid. rewrite Hl. simpl.
  apply mapM_Some, Forall2_fmap_l.
  eapply Forall2_impl; [exact Hrows|]. intros r row Hr. simpl in *.
  rewrite Hr. simpl. apply mapM_Some, Forall2_fmap_l.
  by apply Forall_Forall2_diag, Forall_true.
Qed.

Lemma getitem_Forall2 {A B} (P : A → B → Prop) (l : list A) (k : list B) i :
  Forall2 P l k →
  match Py.getitem l i, Py.getitem k i with
  | Some a, Some b => P a b
  | None, None => True
  | _, _ => False
  end.
Proof.
  intros HP. unfold Py.getitem. rewrite (Forall2_length _ _ _ HP).
  destruct (Py.norm_index _ i) as [n|]; simpl; [|done].
  destruct (l !! n) as [a|] eqn:Ha.
  - by destruct (Forall2_lookup_l _ _ _ _ _ HP Ha) as (b & -> & Hab).
  - assert (k !! n = None) as ->; [|done].
    apply lookup_ge_None. apply lookup_ge_None in Ha.
    by rewrite <- (Forall2_length _ _ _ HP).
Qed.

(** Reading [grid[y][x]] in the store is reading it in the grid. *)
Lemma cell_get_holds h l rs g y x :
  Mem.holds h l rs g →
  Mem.cell_get l y x h = (v ← cell_get g y x; Some (Mem.VInt v, h)).
Proof.
  intros (Hl & _ & Hrows). unfold Mem.cell_get, Mem.bind, Mem.getitem.
  rewrite Hl. simpl. rewrite getitem_fmap. unfold cell_get.
  pose proof (getitem_Forall2 _ rs g y Hrows) as Hy.
  destruct (Py.getitem rs y) as [r|], (Py.getitem g y) as [row|];
    simpl; try done.
  unfold Mem.ret. rewrite Hy. simpl. rewrite getitem_fmap.
  by destruct (Py.getitem row x).
Qed.

(** Storing into [grid[y][x]] updates one row object and leaves the grid
    that the reference stands for updated in the same cell. *)
Lemma cell_set_holds h l rs g y x v g' :
  Mem.holds h l rs g → cell_set g y x v = Some g' →
  ∃ h', Mem.cell_set l y x (Mem.VInt v) h = Some ((), h') ∧
        Mem.holds h' l rs g' ∧
        (∀ l0, l0 ∉ rs → h' !! l0 = h !! l0).
Proof.
  intros (Hl & Hnd & Hrows) Hset. unfold cell_set in Hset.
  destruct (Py.getitem g y) as [row|] eqn:Hrow; [|done]. simpl in Hset.
  destruct (Py.setitem row x v) as [row'|] eqn:Hrow'; [|done]. simpl in Hset.
  apply getitem_Some in Hrow as (k & Hk & Hgk).
  apply setitem_Some in Hset as (k' & Hk' & ->).
  rewrite Hk in Hk'. injection Hk' as <-.
  destruct (Forall2_lookup_r _ _ _ _ _ Hrows Hgk) as (r & Hr & Hh).
  exists (<[r := Mem.VInt <$> row']> h).
  apply NoDup_cons in Hnd as [Hl_rs Hnd_rs].
  assert (r ≠ l) as Hrl.
  { intros ->. apply Hl_rs. by apply list_elem_of_lookup_2 in Hr. }
  split; [|split].
  - unfold Mem.cell_set, Mem.bind, Mem.getitem. rewrite Hl. simpl.
    rewrite getitem_fmap. unfold Py.getitem.
    rewrite (Forall2_length _ _ _ Hrows), Hk. simpl. rewrite Hr. simpl.
    unfold Mem.ret, Mem.setitem. rewrite Hh. simpl.
    rewrite setitem_fmap, Hrow'. done.
  - split; [by rewrite lookup_insert_ne|]. split; [by constructor|].
    apply Forall2_same_length_lookup. split.
    + rewrite length_insert. by eapply Forall2_length.
    + intros i r0 row0 Hr0 Hrow0.
      destruct (decide (i = k)) as [->|Hik].
      * rewrite Hr in Hr0. injection Hr0 as <-.
        rewrite list_lookup_insert_eq in Hrow0
          by (by apply lookup_lt_Some in Hgk).
        injection Hrow0 as <-. by rewrite lookup_insert_eq.
      * rewrite list_lookup_insert_ne in Hrow0 by done.
        assert (r0 ≠ r) as Hne.
        { intros ->. apply Hik. by eapply NoDup_lookup. }
        rewrite lookup_insert_ne by done.
        by apply (Forall2_lookup_lr _ _ _ i _ _ Hrows).
  - intros l0 Hl0. apply lookup_insert_ne. intros <-.
    apply Hl0. by apply list_elem_of_lookup_2 in Hr.
Qed.

(** ** Loops on the store *)

Lemma bind_eq {A B} (m : Mem.M A) (k : A → Mem.M B) h a h1 :
  m h = Some (a, h1) → Mem.bind m k h = k a h1.
Proof. intros Hm. unfold Mem.bind. by rewrite Hm. Qed.

(** A loop on the store follows the loop on values as long as each
    iteration does: [R] relates the store and the variables of the loop on
    the store to the variables of the loop on values. *)
Lemma for_store {A S T} (R : Mem.heap → S → T → Prop) (it : list A)
    (body : A → S → option S) (bodyh : A → T → Mem.M T) :
  (∀ a s s' t h, a ∈ it → R h s t → body a s = Some s' →
     ∃ t' h', bodyh a t h = Some (t', h') ∧ R h' s' t') →
  ∀ s s' t h, R h s t → Py.for_ it body s = Some s' →
    ∃ t' h', Mem.for_ it bodyh t h = Some (t', h') ∧ R h' s' t'.
Proof.
  induction it as [|a it IH]; intros Hbody s s' t h HR Hfor.
  - injection Hfor as <-. by exists t, h.
  - simpl in Hfor. destruct (body a s) as [s1|] eqn:Hb; [|done].
    simpl in Hfor.
    destruct (Hbody a s s1 t h) as (t1 & h1 & Hbh & HR1); [by left|done..|].
    destruct (IH (λ a0 s0 s0' t0 h0 Hin, Hbody a0 s0 s0' t0 h0
                    (list_elem_of_further _ _ _ Hin)) s1 s' t1 h1 HR1 Hfor)
      as (t' & h' & Hfh & HR').
    exists t', h'. split; [|done].
    simpl. unfold Mem.bind. by rewrite Hbh.
Qed.

(** A loop that only reads. *)
Lemma for_store_read {A S} (it : list A) (body : A → S → option S)
    (bodyh : A → S → Mem.M S) (h : Mem.heap) :
  (∀ a s s', a ∈ it → body a s = Some s' → bodyh a s h = Some (s', h)) →
  ∀ s s', Py.for_ it body s = Some s' → Mem.for_ it bodyh s h = Some (s', h).
Proof.
  intros Hbody s s' Hfor.
  destruct (for_store (λ h0 s0 t0, h0 = h ∧ t0 = s0) it body bodyh)
    with (s := s) (s' := s') (t := s) (h := h)
    as (t' & h' & Hfh & -> & ->); [|done..].
  intros a s0 s0' t h0 Ha [-> ->] Hb. exists s0', h. by rewrite (Hbody a s0 s0').
Qed.

(** [get_neighbors] only reads. *)
Lemma get_neighbors_holds h l rs g x y n :
  Mem.holds h l rs g → get_neighbors g x y = Some n →
  Mem.get_neighbors l x y h = Some (n, h).
Proof.
  intros Hg Hn. unfold get_neighbors in Hn. unfold Mem.get_neighbors.
  eapply for_store_read; [|exact Hn].
  intros i s s' _ Hin. cbv beta in Hin.
  eapply for_store_read; [|exact Hin].
  intros j c c' _ Hj. cbv beta in Hj.
  destruct ((i =? 0) && (j =? 0)).
  - by injection Hj as <-.
  - cbn zeta. unfold Mem.bind. rewrite (cell_get_holds h l rs g) by done.
    destruct (cell_get g _ _) as [v|]; [|done]. simpl in *.
    by injection Hj as <-.
Qed.

(** ** Allocation *)

Lemma append_loop {A} (it : list A) c l vs h :
  h !! l = Some vs →
  Mem.for_ it (λ _ _, Mem.bind (Mem.ret c) (λ v, Mem.append l v)) () h
  = Some ((), <[l := vs ++ replicate (length it) c]> h).
Proof.
  revert vs h. induction it as [|a it IH]; intros vs h Hl; simpl.
  - unfold Mem.ret. by rewrite app_nil_r, insert_id.
  - unfold Mem.bind at 1 2, Mem.ret at 1, Mem.append at 1. rewrite Hl. simpl.
    rewrite (IH (vs ++ [c])) by apply lookup_insert_eq.
    by rewrite insert_insert_eq, <- app_assoc.
Qed.

(** A row of zeros: one new object. *)
Lemma row_comp alloc h :
  Mem.list_comp alloc (Py.range 0 SVG_SIZE 1) (λ _, Mem.ret (Mem.VInt 0)) h
  = Some (alloc h, <[alloc h := Mem.VInt <$> replicate 32 0]> h).
Proof.
  unfold Mem.list_comp, Mem.bind at 1, Mem.new_list. cbn zeta.
  unfold Mem.bind at 1. rewrite (append_loop _ _ _ []) by apply lookup_insert_eq.
  unfold Mem.ret. by rewrite insert_insert_eq.
Qed.


Lemma create_rows alloc h0 l (it : list Z) :
  Mem.allocator alloc →
  ∀ h rs, Mem.building h0 h l rs →
    ∃ rs' h',
      Mem.for_ it (λ _ _,
        Mem.bind
          (Mem.bind (Mem.list_comp alloc (Py.range 0 SVG_SIZE 1)
                       (λ _, Mem.ret (Mem.VInt 0)))
                    (λ row, Mem.ret (Mem.VRef row)))
          (λ v, Mem.append l v)) () h
      = Some ((), h') ∧
      Mem.building h0 h' l (rs ++ rs') ∧ length rs' = length it.
Proof.
  intros Halloc. induction it as [|a it IH]; intros h rs Hb.
  - exists [], h. by rewrite app_nil_r.
  - destruct Hb as (Hl & Hnd & Hrows & Hframe).
    set (r := alloc h). pose proof (Halloc h) as Hfresh. fold r in Hfresh.
    assert (r ∉ l :: rs) as Hr.
    { intros [->|Hin]%elem_of_cons; [by rewrite Hl in Hfresh|].
      rewrite Forall_forall in Hrows. destruct (Hrows r Hin) as [Hz _].
      by rewrite Hz in Hfresh. }
    assert (r ≠ l) as Hrl by (intros ->; apply Hr; by left).
    set (h2 := <[l := (Mem.VRef <$> rs) ++ [Mem.VRef r]]>
                 (<[r := Mem.VInt <$> replicate 32 0]> h)).
    destruct (IH h2 (rs ++ [r])) as (rs' & h' & Hfor & Hb' & Hlen).
    { split; [|split; [|split]].
      - unfold h2. by rewrite lookup_insert_eq, fmap_app.
      - apply NoDup_cons in Hnd as [Hl_rs Hnd_rs]. apply NoDup_cons. split.
        + intros [Hin| ->%list_elem_of_singleton]%elem_of_app; done.
        + apply NoDup_app. split; [done|]. split; [|apply NoDup_singleton].
          intros r0 Hr0 ->%list_elem_of_singleton. apply Hr. by right.
      - apply Forall_app. split.
        + rewrite Forall_forall in Hrows. apply Forall_forall.
          intros r0 Hr0. destruct (Hrows r0 Hr0) as [Hz H0]. split; [|done].
          unfold h2. rewrite !lookup_insert_ne; [done| |].
          * intros <-. apply Hr. by right.
          * intros <-. apply NoDup_cons in Hnd as [Hl_rs _]. done.
        + apply Forall_singleton. split.
          * unfold h2. rewrite lookup_insert_ne by done.
            apply lookup_insert_eq.
          * by rewrite <- Hframe.
      - intros l0 Hl0. unfold h2.
        rewrite !lookup_insert_ne.
        + apply Hframe. intros [->|Hin]%elem_of_cons; apply Hl0;
            [by left|right; apply elem_of_app; by left].
        + intros <-. apply Hl0. right. apply elem_of_app. right.
          by apply list_elem_of_singleton.
        + intros <-. apply Hl0. by left. }
    exists (r :: rs'), h'. split; [|split].
    + cbn [Mem.for_]. unfold Mem.bind. rewrite row_comp. fold r.
      unfold Mem.ret at 1, Mem.append at 1.
      rewrite lookup_insert_ne by done. rewrite Hl.
      cbn [mbind option_bind]. exact Hfor.
    + by rewrite <- app_assoc in Hb'.
    + simpl. by rewrite Hlen.
Qed.

(** [create_grid] builds the grid of zeros out of 33 new objects and
    changes no object of the store. *)
Lemma create_grid_store alloc h :
  Mem.allocator alloc →
  ∃ l rs h',
    Mem.create_grid alloc h = Some (l, h') ∧
    Mem.holds h' l rs create_grid ∧
    Mem.preserved h h' ∧
    (∀ l0, l0 ∈ l :: rs → h !! l0 = None).
Proof.
  intros Halloc. set (l := alloc h).
  pose proof (Halloc h) as Hfresh. fold l in Hfresh.
  destruct (create_rows alloc h l (Py.range 0 SVG_SIZE 1) Halloc
              (<[l := []]> h) []) as (rs & h' & Hfor & Hb & Hlen).
  { split; [apply lookup_insert_eq|]. split; [apply NoDup_singleton|].
    split; [constructor|]. intros l0 Hl0. apply lookup_insert_ne.
    intros <-. apply Hl0. by left. }
  destruct Hb as (Hl & Hnd & Hrows & Hframe).
  rewrite app_nil_l in Hl, Hnd, Hrows, Hframe.
  assert (∀ l0, l0 ∈ l :: rs → h !! l0 = None) as Hnew.
  { intros l0 [->|Hin]%elem_of_cons; [done|].
    rewrite Forall_forall in Hrows. by destruct (Hrows l0 Hin). }
  exists l, rs, h'. split; [|split; [|split; [|done]]].
  - unfold Mem.create_grid, Mem.list_comp.
    erewrite bind_eq by (unfold Mem.new_list; reflexivity).
    fold l. by erewrite bind_eq by exact Hfor.
  - split; [done|]. split; [done|].
    change create_grid with (replicate 32 (replicate 32 0)).
    apply Forall2_replicate_r; [by rewrite Hlen|].
    eapply Forall_impl; [exact Hrows|]. by intros r [Hz _].
  - intros l0 Hl0. apply Hframe. intros Hin.
    rewrite (Hnew l0 Hin) in Hl0. by destruct Hl0.
Qed.

(** ** The functions on the store *)

Lemma holds_frame h h' l rs g :
  Mem.holds h l rs g → (∀ l0, l0 ∈ l :: rs → h' !! l0 = h !! l0) →
  Mem.holds h' l rs g.
Proof.
  intros (Hl & Hnd & Hrows) Hsame. split; [|split; [done|]].
  - rewrite Hsame; [done|by left].
  - apply Forall2_same_length_lookup. split; [by eapply Forall2_length|].
    intros i r row Hr Hrow. rewrite Hsame.
    + by apply (Forall2_lookup_lr _ _ _ i _ _ Hrows).
    + right. by apply list_elem_of_lookup_2 in Hr.
Qed.

(** [evolve_grid] returns a new grid object that holds the next generation
    and changes no object of the store, the grid it is given included. *)
Lemma evolve_grid_store alloc h l rs g g' :
  Mem.allocator alloc → Mem.holds h l rs g → evolve_grid g = Some g' →
  ∃ l' rs' h',
    Mem.evolve_grid alloc l h = Some (l', h') ∧
    Mem.holds h' l' rs' g' ∧ Mem.preserved h h'.
Proof.
  intros Halloc Hg He.
  destruct (create_grid_store alloc h Halloc)
    as (l' & rs' & h1 & Hcreate & Hnew & Hpres & Hfresh).
  assert (∀ l0, l0 ∈ rs' → l0 ∉ l :: rs) as Hdisj.
  { intros l0 Hin Hold.
    destruct (holds_in_store h l rs g l0 Hg Hold) as [vs Hvs].
    rewrite Hfresh in Hvs; [done|by right]. }
  unfold evolve_grid in He. cbn zeta in He.
  destruct (for_store
    (λ hk ng (u : ()), Mem.holds hk l rs g ∧ Mem.holds hk l' rs' ng ∧
                       Mem.preserved h hk)
    (Py.range 0 SVG_SIZE 1)
    (λ y new_grid, Py.for_ (Py.range 0 SVG_SIZE 1)
       (λ x new_grid, evolve_cell g y x new_grid) new_grid)
    (λ y _, Mem.for_ (Py.range 0 SVG_SIZE 1) (λ x _,
       Mem.bind (Mem.get_neighbors l x y) (λ neighbors,
       Mem.bind (Mem.cell_get l y x) (λ c,
       Mem.bind (Mem.truthy c) (λ live,
         if live
         then Mem.cell_set l' y x
                (Mem.VInt (if bool_decide (neighbors ∈ [2; 3]) then 1 else 0))
         else Mem.cell_set l' y x
                (Mem.VInt (if neighbors =? 3 then 1 else 0)))))) ()))
    with (s := create_grid) (s' := g') (t := ()) (h := h1)
    as ([] & h' & Hfor & _ & Hg' & Hpres'); [| |exact He|].
  - intros y s s' [] hk _ HR Hy. cbv beta in Hy.
    eapply (for_store
      (λ hk ng (u : ()), Mem.holds hk l rs g ∧ Mem.holds hk l' rs' ng ∧
                         Mem.preserved h hk)); [|exact HR|exact Hy].
    clear s s' hk HR Hy.
    intros x ng ng' [] hk _ (Hgk & Hngk & Hpk) Hcell. cbv beta.
    unfold evolve_cell in Hcell.
    destruct (get_neighbors g x y) as [n|] eqn:Hn; [|done]. simpl in Hcell.
    destruct (cell_get g y x) as [c|] eqn:Hc; [|done]. simpl in Hcell.
    erewrite bind_eq by (by eapply get_neighbors_holds).
    erewrite bind_eq
      by (rewrite (cell_get_holds hk l rs g) by done; by rewrite Hc).
    erewrite bind_eq by (unfold Mem.truthy, Mem.ret; reflexivity).
    assert (∃ v, cell_set ng y x v = Some ng' ∧
              (if Py.truthy c
               then Mem.cell_set l' y x
                      (Mem.VInt (if bool_decide (n ∈ [2; 3]) then 1 else 0))
               else Mem.cell_set l' y x
                      (Mem.VInt (if n =? 3 then 1 else 0)))
              = Mem.cell_set l' y x (Mem.VInt v)) as (v & Hset & ->).
    { destruct (Py.truthy c); by eexists. }
    destruct (cell_set_holds hk l' rs' ng y x v ng' Hngk Hset)
      as (hk' & Hseth & Hngk' & Hframe).
    exists (), hk'. split; [done|]. split; [|split; [done|]].
    + apply (holds_frame hk); [done|]. intros l0 Hl0. apply Hframe.
      intros Hin. by apply (Hdisj l0).
    + intros l0 Hl0. rewrite Hframe; [by apply Hpk|].
      intros Hin. rewrite Hfresh in Hl0; [by destruct Hl0|by right].
  - split; [by apply (holds_preserved h)|]. split; [done|done].
  - exists l', rs', h'. split; [|done].
    unfold Mem.evolve_grid.
    erewrite bind_eq by exact Hcreate.
    by erewrite bind_eq by exact Hfor.
Qed.

(** The seeding loops store the bits into the rows of the grid object. *)
Lemma seed_store h0 h l rs bytes_data g :
  Mem.holds h l rs create_grid → Mem.preserved h0 h →
  (∀ l0, l0 ∈ rs → h0 !! l0 = None) →
  seed_bytes bytes_data = Some g →
  ∃ h',
    Mem.for_ (Py.range 0 MAX_BYTES 1) (λ i _,
      Mem.bind (Mem.lift (byte_at bytes_data i)) (λ byte,
        Mem.for_ (Py.range 7 (-1) (-1)) (λ j _,
          let bit := Z.land (Z.shiftr byte j) 1 in
          let bit_index := i * 8 + (7 - j) in
          let x := bit_index `mod` SVG_SIZE in
          let y := bit_index `div` SVG_SIZE in
          if in_grid y x then Mem.cell_set l y x (Mem.VInt bit)
          else Mem.ret ()) ())) () h
    = Some ((), h') ∧
    Mem.holds h' l rs g ∧ Mem.preserved h0 h'.
Proof.
  intros Hg Hpres Hfresh Hseed. unfold seed_bytes in Hseed.
  cbn zeta in Hseed.
  assert (∃ (u : ()) h',
            Mem.for_ (Py.range 0 MAX_BYTES 1) (λ i _,
              Mem.bind (Mem.lift (byte_at bytes_data i)) (λ byte,
                Mem.for_ (Py.range 7 (-1) (-1)) (λ j _,
                  let bit := Z.land (Z.shiftr byte j) 1 in
                  let bit_index := i * 8 + (7 - j) in
                  let x := bit_index `mod` SVG_SIZE in
                  let y := bit_index `div` SVG_SIZE in
                  if in_grid y x then Mem.cell_set l y x (Mem.VInt bit)
                  else Mem.ret ()) ())) () h
            = Some (u, h') ∧
            (λ hk s (u : ()), Mem.holds hk l rs s ∧ Mem.preserved h0 hk)
              h' g u) as ([] & h' & Hfor & Hg' & Hpres');
    [|by exists h'].
  eapply (for_store
    (λ hk s (u : ()), Mem.holds hk l rs s ∧ Mem.preserved h0 hk)).
  3: exact Hseed.
  2: by split.
  intros i s s' [] hk _ HR Hi. cbv beta in Hi.
  destruct (byte_at bytes_data i) as [byte|] eqn:Hbyte; [|done].
  simpl in Hi.
  erewrite bind_eq by (unfold Mem.lift; reflexivity).
  eapply (for_store
    (λ hk s (u : ()), Mem.holds hk l rs s ∧ Mem.preserved h0 hk));
    [|exact HR|exact Hi].
  clear s s' hk HR Hi.
  intros j s s' [] hk _ (Hs & Hpk) Hbit. cbv beta zeta.
  unfold seed_bit in Hbit. cbn zeta in Hbit.
  destruct (in_grid _ _).
  - destruct (cell_set_holds hk l rs s _ _ _ s' Hs Hbit)
      as (hk' & Hseth & Hs' & Hframe).
    exists (), hk'. split; [done|]. split; [done|].
    intros l0 Hl0. rewrite Hframe; [by apply Hpk|].
    intros Hin. rewrite (Hfresh l0 Hin) in Hl0. by destruct Hl0.
  - injection Hbit as <-. by exists (), hk.
Qed.

(** The steps loop: [current_grid] refers to generation after generation. *)
Lemma run_store alloc h0 h l rs g steps g' :
  Mem.allocator alloc → Mem.holds h l rs g → Mem.preserved h0 h →
  run g steps = Some g' →
  ∃ l' rs' h',
    Mem.for_ (Py.range 0 steps 1)
      (λ _ current_grid, Mem.evolve_grid alloc current_grid) l h
    = Some (l', h') ∧
    Mem.holds h' l' rs' g' ∧ Mem.preserved h0 h'.
Proof.
  intros Halloc Hg Hpres Hrun. unfold run in Hrun. cbn zeta in Hrun.
  assert (∃ l' h',
            Mem.for_ (Py.range 0 steps 1)
              (λ _ current_grid, Mem.evolve_grid alloc current_grid) l h
            = Some (l', h') ∧
            (λ hk gk lk, ∃ rsk, Mem.holds hk lk rsk gk ∧ Mem.preserved h0 hk)
              h' g' l') as (l' & h' & Hfor & rs' & Hg' & Hpres');
    [|by exists l', rs', h'].
  eapply (for_store
    (λ hk gk lk, ∃ rsk, Mem.holds hk lk rsk gk ∧ Mem.preserved h0 hk)).
  3: exact Hrun.
  2: by exists rs.
  intros k gk gk' lk hk _ (rsk & Hgk & Hpk) He. cbv beta in He.
  destruct (evolve_grid_store alloc hk lk rsk gk gk' Halloc Hgk He)
    as (l1 & rs1 & h1 & Hev & Hg1 & Hp1).
  exists l1, h1. split; [done|]. exists rs1. split; [done|].
  by eapply preserved_trans.
Qed.

(** The whole pipeline on the store: from any store and with any allocator
    it returns a reference to a grid object that holds the grid the
    pipeline computes on values, and it changes no object of the store it
    started from. *)
Lemma generate_png_art_store alloc h input_text steps g :
  Mem.allocator alloc → generate_png_art input_text steps = Some g →
  ∃ l rs h',
    Mem.generate_png_art alloc input_text steps h = Some (l, h') ∧
    Mem.holds h' l rs g ∧ Mem.preserved h h'.
Proof.
  intros Halloc Hgen. unfold generate_png_art, seed_grid in Hgen.
  destruct (Py.encode_utf8 input_text) as [bytes_data|] eqn:Henc; [|done].
  simpl in Hgen.
  destruct (seed_bytes bytes_data) as [g0|] eqn:Hseed; [|done].
  simpl in Hgen.
  destruct (create_grid_store alloc h Halloc)
    as (l & rs & h1 & Hcreate & Hnew & Hpres & Hfresh).
  destruct (seed_store h h1 l rs bytes_data g0 Hnew Hpres) as
    (h2 & Hloop & Hg0 & Hpres2); [|done|].
  { intros l0 Hl0. apply Hfresh. by right. }
  destruct (run_store alloc h h2 l rs g0 steps g Halloc Hg0 Hpres2 Hgen)
    as (l' & rs' & h' & Hrun & Hg & Hpres').
  exists l', rs', h'. split; [|done].
  unfold Mem.generate_png_art.
  erewrite bind_eq by exact Hcreate.
  erewrite bind_eq by (unfold Mem.lift; rewrite Henc; reflexivity).
  erewrite bind_eq by exact Hloop.
  exact Hrun.
Qed.

Lemma read_grid_preserved h h' l g :
  Mem.read_grid h l = Some g → Mem.preserved h h' →
  Mem.read_grid h' l = Some g.
Proof.
  unfold Mem.read_grid. intros Hread Hpres.
  destruct (h !! l) as [vs|] eqn:Hl; [|done]. simpl in Hread.
  rewrite Hpres by (by rewrite Hl). rewrite Hl. simpl.
  apply mapM_Some in Hread. apply mapM_Some.
  eapply Forall2_impl; [exact Hread|]. intros v row Hrow. simpl in *.
  destruct v as [z|r]; [done|]. simpl in *.
  destruct (h !! r) as [cs|] eqn:Hr; [|done].
  rewrite Hpres by (by rewrite Hr). by rewrite Hr.
Qed.

Lemma next_loc_allocator : Mem.allocator Mem.next_loc.
Proof.
  intros h. unfold Mem.next_loc. apply not_elem_of_dom.
  apply (is_fresh (dom h)).
Qed.

Lemma other_loc_allocator : Mem.allocator Mem.other_loc.
Proof.
  intros h. apply not_elem_of_dom. unfold Mem.other_loc.
  pose proof (is_fresh ({[Mem.next_loc h]} ∪ dom h)) as Hf. set_solver.
Qed.

Lemma generate_png_art_total input_text steps :
  Forall Py.scalar input_text →
  ∃ g, generate_png_art input_text steps = Some g ∧ bitgrid g.
Proof.
  intros Htext.
  destruct (encode_utf8_scalar input_text Htext) as [bytes_data Henc].
  destruct (seed_bytes_bitgrid bytes_data) as (g0 & Hseed & Hg0).
  destruct (run_bitgrid g0 steps Hg0) as (g & Hrun & Hg).
  exists g. split; [|done].
  unfold generate_png_art, seed_grid. rewrite Henc. simpl. by rewrite Hseed.
Qed.

(** ** Two invocations *)

(** C6. The pipeline is deterministic. Lines 29-52 and 75-97 read no clock,
    no random source, no file and no variable that is ever assigned to;
    what they touch besides their arguments is the store of list objects.
    So two invocations on the same text and the same non-negative step
    count are compared in any circumstances that can differ: the stores
    [h1] and [h2] they start from (the second may run in the store the
    first has left, or in any other) and the identities [alloc1] and
    [alloc2] give to the objects they create. Each invocation returns a
    reference to a grid object; the two objects hold the same 32x32 grid of
    0/1 cells, cell by cell, which is the grid [generate_png_art] computes
    on values. Neither invocation changes an object that existed before it:
    a grid returned earlier still reads the same afterwards. *)
Theorem pipeline_deterministic alloc1 alloc2 (h1 h2 : Mem.heap)
    input_text steps :
  Mem.allocator alloc1 → Mem.allocator alloc2 →
  Forall Py.scalar input_text → 0 ≤ steps →
  ∃ l1 h1' l2 h2' g,
    Mem.generate_png_art alloc1 input_text steps h1 = Some (l1, h1') ∧
    Mem.generate_png_art alloc2 input_text steps h2 = Some (l2, h2') ∧
    Mem.read_grid h1' l1 = Some g ∧
    Mem.read_grid h2' l2 = Some g ∧
    bitgrid g ∧
    generate_png_art input_text steps = Some g ∧
    (∀ y x, coord y → coord x →
       ∃ c, Mem.cell_get l1 y x h1' = Some (Mem.VInt c, h1') ∧
            Mem.cell_get l2 y x h2' = Some (Mem.VInt c, h2')) ∧
    Mem.preserved h1 h1' ∧ Mem.preserved h2 h2' ∧
    (∀ l0 g0, Mem.read_grid h1 l0 = Some g0 →
              Mem.read_grid h1' l0 = Some g0) ∧
    (∀ l0 g0, Mem.read_grid h2 l0 = Some g0 →
              Mem.read_grid h2' l0 = Some g0).
Proof.
  intros Ha1 Ha2 Htext _.
  destruct (generate_png_art_total input_text steps Htext) as (g & Hgen & Hg).
  destruct (generate_png_art_store alloc1 h1 input_text steps g Ha1 Hgen)
    as (l1 & rs1 & h1' & Hrun1 & Hg1 & Hp1).
  destruct (generate_png_art_store alloc2 h2 input_text steps g Ha2 Hgen)
    as (l2 & rs2 & h2' & Hrun2 & Hg2 & Hp2).
  exists l1, h1', l2, h2', g.
  split; [done|]. split; [done|].
  split; [by apply (read_grid_holds h1' l1 rs1)|].
  split; [by apply (read_grid_holds h2' l2 rs2)|].
  split; [done|]. split; [done|]. split; [|split; [done|split; [done|split]]].
  - intros y x Hy Hx. exists (cell g y x).
    rewrite (cell_get_holds h1' l1 rs1 g), (cell_get_holds h2' l2 rs2 g)
      by done.
    by rewrite (cell_get_cell g y x) by (done || apply Hg).
  - intros l0 g0 Hread. by apply (read_grid_preserved h1).
  - intros l0 g0 Hread. by apply (read_grid_preserved h2).
Qed.

(** The text of the card, two steps: once in the empty store, and once, with
    another allocator, in a store that has an object already. *)
Lemma pipeline_deterministic_witness :
  Mem.allocator Mem.next_loc ∧ Mem.allocator Mem.other_loc ∧
  Forall Py.scalar (Py.str "PF 2025") ∧ 0 ≤ 2 ∧
  ∃ l1 h1' l2 h2' g,
    Mem.generate_png_art Mem.next_loc (Py.str "PF 2025") 2 ∅
      = Some (l1, h1') ∧
    Mem.generate_png_art Mem.other_loc (Py.str "PF 2025") 2
      {[ 5%positive := [Mem.VInt 7] ]} = Some (l2, h2') ∧
    Mem.read_grid h1' l1 = Some g ∧
    Mem.read_grid h2' l2 = Some g ∧
    h2' !! 5%positive = Some [Mem.VInt 7].
Proof.
  assert (Ht : Forall Py.scalar (Py.str "PF 2025"))
    by (refine (bool_decide_unpack _ _); vm_compute; exact I).
  assert (Hs : 0 ≤ 2) by lia.
  split; [exact next_loc_allocator|]. split; [exact other_loc_allocator|].
  split; [exact Ht|]. split; [exact Hs|].
  destruct (pipeline_deterministic Mem.next_loc Mem.other_loc ∅
              {[ 5%positive := [Mem.VInt 7] ]} (Py.str "PF 2025") 2
              next_loc_allocator other_loc_allocator Ht Hs)
    as (l1 & h1' & l2 & h2' & g & H1 & H2 & Hr1 & Hr2 & _ & _ & _ & _
        & Hpres & _).
  exists l1, h1', l2, h2', g.
  split; [exact H1|]. split; [exact H2|]. split; [exact Hr1|].
  split; [exact Hr2|].
  rewrite Hpres; [reflexivity|]. eexists. reflexivity.
Defined.
